(** * Check_V: hash lookup, result cache, severity classifier and pie chart

    A shallow embedding of the two screens of the application:

    - [explore.tsx], the file screen: [pickDocument], [generateHash],
      [checkVirusTotal], [getSeverityLevel], [AnimatedPieChart];
    - the hash screen ([HomeScreen]): [checkHash], [getSeverityLevel],
      [AnimatedPieChart].

    JavaScript numbers are IEEE-754 binary64 values.  The chart arithmetic is
    written once, over an interface [Number], and read at two instances: the
    kernel's binary64 floats (what the program computes) and exact rationals
    extended with NaN and the two infinities (what the program computes up to
    rounding).  Detection counts are integers and are kept in [Z].

    Asynchronous code is read sequentially: one interaction runs at a time,
    every [await] is followed to its continuation, and what a promise settles
    to is supplied by the environment. *)

From Stdlib Require Import ZArith QArith Qcanon Reals Lra Lia List String Ascii Bool.
From Stdlib Require Import Floats.
From stdpp Require Import gmap strings pretty.
Import ListNotations.

Local Open Scope Z_scope.
Local Open Scope string_scope.

(* ===================================================================== *)
(** * Data model *)
(* ===================================================================== *)

(** [ScanResult['stats']]: the four aggregate detection counts. *)
Record Stats := {
  malicious : Z;
  suspicious : Z;
  undetected : Z;
  harmless : Z;
}.

(** One element of [ScanResult['vendors']]. *)
Record Vendor := {
  vendor : string;
  result : string;
  category : string;
}.

Record ScanResult := {
  stats : Stats;
  vendors : list Vendor;
}.

(* ===================================================================== *)
(** * Severity classifier *)
(* ===================================================================== *)

(** [getSeverityLevel] of both screens; the component state [results]
    ([shaResults] on the hash screen) is its argument, [None] being [null]. *)
Definition getSeverityLevel (results : option ScanResult) : string :=
  match results with
  | None => "Unknown"
  | Some results =>
      let totalBad := malicious (stats results) + suspicious (stats results) in
      if (totalBad =? 0)%Z then "Clean"
      else if (totalBad <=? 2)%Z then "Low Risk"
      else if (totalBad <=? 5)%Z then "Moderate Risk"
      else if (totalBad <=? 10)%Z then "High Risk"
      else "Critical Risk"
  end.

(* ===================================================================== *)
(** * Numbers *)
(* ===================================================================== *)

(** The operations the chart code applies to JavaScript numbers. *)
Class Number (N : Type) := {
  num_of_Z : Z -> N;
  num_add : N -> N -> N;
  num_sub : N -> N -> N;
  num_mul : N -> N -> N;
  num_div : N -> N -> N;
  num_leb : N -> N -> bool;
}.

Declare Scope num_scope.
Delimit Scope num_scope with num.
Infix "+" := num_add : num_scope.
Infix "-" := num_sub : num_scope.
Infix "*" := num_mul : num_scope.
Infix "/" := num_div : num_scope.
Infix "<=?" := num_leb : num_scope.

(** ** Binary64 *)

(** The double of an integer: the nearest one, ties to even, and an
    infinity past the range. *)
Definition float_of_Z (z : Z) : float :=
  SF2Prim (binary_normalize prec emax z 0 false).

#[export] Instance float_Number : Number float := {|
  num_of_Z := float_of_Z;
  num_add := PrimFloat.add;
  num_sub := PrimFloat.sub;
  num_mul := PrimFloat.mul;
  num_div := PrimFloat.div;
  num_leb := PrimFloat.leb;
|}.

(** ** Exact numbers

    A finite rational, NaN, or an infinity; the special values combine as
    in IEEE-754.  Finite results are not rounded and zero carries no sign
    (a finite non-zero number over zero takes the sign of the numerator). *)
Inductive xnum :=
| Fin (q : Qc)
| NaN
| PInf
| NInf.

Definition Qc_sign (q : Qc) : comparison := (q ?= 0)%Qc.

Definition xinf (positive : bool) : xnum := if positive then PInf else NInf.

Definition xneg (a : xnum) : xnum :=
  match a with
  | Fin q => Fin (- q)%Qc
  | NaN => NaN
  | PInf => NInf
  | NInf => PInf
  end.

Definition xadd (a b : xnum) : xnum :=
  match a, b with
  | NaN, _ | _, NaN => NaN
  | Fin x, Fin y => Fin (x + y)%Qc
  | PInf, NInf | NInf, PInf => NaN
  | PInf, _ | _, PInf => PInf
  | NInf, _ | _, NInf => NInf
  end.

Definition xsub (a b : xnum) : xnum := xadd a (xneg b).

(** An infinity times a finite number: NaN at zero, else signed. *)
Definition xscale (inf_positive : bool) (q : Qc) : xnum :=
  match Qc_sign q with
  | Eq => NaN
  | Gt => xinf inf_positive
  | Lt => xinf (negb inf_positive)
  end.

Definition xmul (a b : xnum) : xnum :=
  match a, b with
  | NaN, _ | _, NaN => NaN
  | Fin x, Fin y => Fin (x * y)%Qc
  | PInf, Fin y | Fin y, PInf => xscale true y
  | NInf, Fin y | Fin y, NInf => xscale false y
  | PInf, PInf | NInf, NInf => PInf
  | PInf, NInf | NInf, PInf => NInf
  end.

Definition xdiv (a b : xnum) : xnum :=
  match a, b with
  | NaN, _ | _, NaN => NaN
  | Fin x, Fin y =>
      match Qc_sign y with
      | Eq => xscale true x
      | _ => Fin (x / y)%Qc
      end
  | Fin _, PInf | Fin _, NInf => Fin 0%Qc
  | PInf, Fin y => match Qc_sign y with Lt => NInf | _ => PInf end
  | NInf, Fin y => match Qc_sign y with Lt => PInf | _ => NInf end
  | _, _ => NaN
  end.

Definition xleb (a b : xnum) : bool :=
  match a, b with
  | NaN, _ | _, NaN => false
  | Fin x, Fin y => match (x ?= y)%Qc with Gt => false | _ => true end
  | NInf, _ => true
  | _, PInf => true
  | _, _ => false
  end.

Definition xnum_of_Z (z : Z) : xnum := Fin (Q2Qc (inject_Z z)).

#[export] Instance xnum_Number : Number xnum := {|
  num_of_Z := xnum_of_Z;
  num_add := xadd;
  num_sub := xsub;
  num_mul := xmul;
  num_div := xdiv;
  num_leb := xleb;
|}.

(* ===================================================================== *)
(** * Chart renderer *)
(* ===================================================================== *)

Section Chart.
Context {N : Type} `{Number N}.
Local Open Scope num_scope.

Record SliceData := {
  value : N;
  color : string;
}.

(** What [describeArc] joins into the path string
    [M start.x start.y A radius radius 0 largeArcFlag 0 end.x end.y L x y Z],
    where [start = polarToCartesian(x, y, radius, endAngle)] and
    [end = polarToCartesian(x, y, radius, startAngle)].  The two points are
    kept as the angles they are computed from. *)
Record ArcPath := {
  arc_x : N;
  arc_y : N;
  arc_radius : N;
  startAngle : N;
  endAngle : N;
  largeArcFlag : string;
}.

Definition describeArc (x y radius startAngle endAngle : N) : ArcPath :=
  let largeArcFlag :=
    if (endAngle - startAngle <=? num_of_Z 180) then "0" else "1" in
  {| arc_x := x; arc_y := y; arc_radius := radius;
     startAngle := startAngle; endAngle := endAngle;
     largeArcFlag := largeArcFlag |}.

(** A [<Path d={path} fill={slice.color} />] element. *)
Record Path := {
  d : ArcPath;
  fill : string;
}.

(** The rendered [<Svg>]: its size, the [rotation] and [origin] of the
    enclosing [<G>], and the paths inside it. *)
Record Svg := {
  svg_width : N;
  svg_height : N;
  g_rotation : Z;
  g_origin : N * N;
  paths : list Path;
}.

(** [data.reduce((sum, item) => sum + item.value, 0)] *)
Definition total (data : list SliceData) : N :=
  fold_left (fun sum item => sum + value item) data (num_of_Z 0).

(** The callback of [data.map], with the captured variable
    [cumulativeAngle] passed along. *)
Fixpoint slices (width height outerRadius progress total cumulativeAngle : N)
    (data : list SliceData) : list Path :=
  match data with
  | [] => []
  | slice :: rest =>
      let sliceAngle := (value slice / total) * num_of_Z 360 in
      let animatedEndAngle := cumulativeAngle + sliceAngle * progress in
      let path :=
        describeArc (width / num_of_Z 2) (height / num_of_Z 2) outerRadius
          cumulativeAngle animatedEndAngle in
      {| d := path; fill := color slice |}
        :: slices width height outerRadius progress total
             (cumulativeAngle + sliceAngle) rest
  end.

(** [AnimatedPieChart]; [progress] is the component's animated state,
    which runs from 0 to 1. *)
Definition AnimatedPieChart (data : list SliceData)
    (width height outerRadius progress : N) : Svg :=
  let total := total data in
  let cumulativeAngle := num_of_Z 0 in
  {| svg_width := width;
     svg_height := height;
     g_rotation := -90;
     g_origin := (width / num_of_Z 2, height / num_of_Z 2);
     paths := slices width height outerRadius progress total cumulativeAngle data |}.

(** The angle a path sweeps. *)
Definition span (p : Path) : N := endAngle (d p) - startAngle (d p).

(** The angle slice [i] sweeps in the finished chart:
    [(slice.value / total) * 360]. *)
Definition sliceAngle (data : list SliceData) (slice : SliceData) : N :=
  (value slice / total data) * num_of_Z 360.
End Chart.

Arguments SliceData N : clear implicits.
Arguments ArcPath N : clear implicits.
Arguments Path N : clear implicits.
Arguments Svg N : clear implicits.

(* ===================================================================== *)
(** * The chart in exact arithmetic: vocabulary *)
(* ===================================================================== *)

(** The sum of a list of numbers. *)
Fixpoint xsum (l : list xnum) : xnum :=
  match l with
  | [] => Fin 0%Qc
  | a :: rest => xadd a (xsum rest)
  end.

(** A slice value that is finite and not negative. *)
Definition nonneg_finite (a : xnum) : bool :=
  match a with
  | Fin q => match Qc_sign q with Lt => false | _ => true end
  | _ => false
  end.

(** A number that is finite and positive. *)
Definition positive_finite (a : xnum) : bool :=
  match a with
  | Fin q => match Qc_sign q with Gt => true | _ => false end
  | _ => false
  end.

Section ExactAngles.
Local Open Scope Qc_scope.

Fixpoint qsum (l : list Qc) : Qc :=
  match l with
  | [] => 0
  | q :: rest => q + qsum rest
  end.

(** The sweep of a value [q] in a chart of total [T], in degrees. *)
Definition sweep (T q : Qc) : Qc := q / T * Q2Qc (inject_Z 360).

(** Start and end angle of each slice, for finite values [qs]. *)
Fixpoint angles (T p c : Qc) (qs : list Qc) : list (Qc * Qc) :=
  match qs with
  | [] => []
  | q :: rest => (c, c + sweep T q * p) :: angles T p (c + sweep T q) rest
  end.
End ExactAngles.

(** The paths of a chart at the finite progress [p]. *)
Definition chart_at (width height outerRadius : xnum)
    (data : list (SliceData xnum)) (p : Qc) : list (Path xnum) :=
  paths (AnimatedPieChart data width height outerRadius (Fin p)).

Record ThemeColors := {
  background : string;
  text : string;
  primary : string;
  card : string;
  danger : string;
  success : string;
}.

(* ===================================================================== *)
(** * Promises, errors and the runtime *)
(* ===================================================================== *)

(** A thrown value, as far as the handlers look at it:
    [err.response?.data?.error?.message] ([None] when a link of the chain
    is missing) and [err.message]. *)
Record JSError := {
  response_data_error_message : option string;
  message : string;
}.

(** What an awaited promise settles to; also the result of a call that may
    throw. *)
Inductive Settled (A : Type) :=
| Fulfilled (a : A)
| Rejected (err : JSError).
Arguments Fulfilled {A} a.
Arguments Rejected {A} err.

(** The two [TypeError]s the lookup can raise on a fulfilled response. *)
Inductive TypeErrorKind :=
| ReadPropertyOfUndefined   (* [response.data.data.attributes.…] on a missing link *)
| ConvertUndefinedToObject. (* [Object.entries(undefined)] *)

(** What the JavaScript engine provides: the JSON codec (at the type the
    source gives to what it stores and reads back) and the text of the
    engine's [TypeError] messages.  The text of an object is never empty
    (it opens with a brace).  [JSON_parse] is read at the texts the two
    screens store, which are texts of a [ScanResult]; a text of another
    shape has no reading here. *)
Class Runtime := {
  JSON_stringify : ScanResult -> string;
  JSON_parse : string -> Settled ScanResult;
  TypeError_message : TypeErrorKind -> string;
  JSON_stringify_truthy : forall r, JSON_stringify r <> "";
}.

(** An entry of [last_analysis_results]: [data.result] ([None] when null or
    absent) and [data.category]. *)
Record EngineVerdict := {
  engine_result : option string;
  engine_category : string;
}.

(** [response.data.data.attributes].  [last_analysis_results] is the
    object's own enumerable properties in the order [Object.entries] lists
    them, [None] when the property is absent.  [last_analysis_stats] is
    there, as the type [ScanResult] of the source has it: a report without
    counts has no reading here. *)
Record Attributes := {
  last_analysis_results : option (list (string * EngineVerdict));
  last_analysis_stats : Stats;
}.

(** The body of a fulfilled [axios.get]: [None] when
    [response.data.data.attributes] cannot be read. *)
Definition ResponseBody := option Attributes.

(** The remote service: what [axios.get(url, …)] settles to. *)
Definition Network := string -> Settled ResponseBody.

Definition VIRUSTOTAL_API_KEY : string :=
  "eb9cd3d7cf4ecf107ca521f4081a2f5429955148b989c0fa09121a0635581cbc".

(** What an interaction does that is visible outside the component. *)
Inductive Event :=
| GetItem (key : string)
| SetItem (key value : string)
| HttpGet (url x_apikey : string)
| SetResults (r : ScanResult)
| SetError (msg : string)
| UnhandledRejection (err : JSError).

(** The component state [ui], the contents of [AsyncStorage] and the events
    so far, oldest first. *)
Record World (UI : Type) := {
  ui : UI;
  storage : gmap string string;
  trace : list Event;
}.
Arguments ui {UI} w.
Arguments storage {UI} w.
Arguments trace {UI} w.

(** ** The interaction monad: state, and a thrown error or a value *)

Definition M (UI A : Type) : Type := World UI -> Settled A * World UI.

Section Effects.
Context {UI : Type}.

Definition ret {A} (a : A) : M UI A := fun w => (Fulfilled a, w).

Definition bind {A B} (c : M UI A) (k : A -> M UI B) : M UI B :=
  fun w =>
    match c w with
    | (Fulfilled a, w') => k a w'
    | (Rejected err, w') => (Rejected err, w')
    end.

(** [await p] for a promise that settles to [p]; [throw] when rejected. *)
Definition await {A} (p : Settled A) : M UI A := fun w => (p, w).

Definition emit (e : Event) : M UI unit :=
  fun w =>
    (Fulfilled tt,
     {| ui := ui w; storage := storage w; trace := trace w ++ [e] |}).

Definition get_ui : M UI UI := fun w => (Fulfilled (ui w), w).

Definition set_ui (f : UI -> UI) : M UI unit :=
  fun w =>
    (Fulfilled tt,
     {| ui := f (ui w); storage := storage w; trace := trace w |}).

(** [try { body } catch (err) { handler }] *)
Definition try_catch {A} (body : M UI A) (handler : JSError -> M UI A) : M UI A :=
  fun w =>
    match body w with
    | (Fulfilled a, w') => (Fulfilled a, w')
    | (Rejected err, w') => handler err w'
    end.

(** [try { … } finally { fin }]: [fin] runs on both exits and the exit of
    the block stands unless [fin] throws. *)
Definition finally {A} (body : M UI A) (fin : M UI unit) : M UI A :=
  fun w =>
    match body w with
    | (r, w') =>
        match fin w' with
        | (Fulfilled _, w'') => (r, w'')
        | (Rejected err, w'') => (Rejected err, w'')
        end
    end.

(** A call to an async function whose promise is dropped (no [await],
    no [.catch]): a rejection reaches nobody. *)
Definition detached (c : M UI unit) : M UI unit :=
  fun w =>
    match c w with
    | (Fulfilled _, w') => (Fulfilled tt, w')
    | (Rejected err, w') =>
        (Fulfilled tt,
         {| ui := ui w'; storage := storage w';
            trace := trace w' ++ [UnhandledRejection err] |})
    end.

(** ** AsyncStorage, a string-to-string store that does not fail *)

Definition AsyncStorage_getItem (key : string) : M UI (option string) :=
  fun w =>
    (Fulfilled (storage w !! key),
     {| ui := ui w; storage := storage w; trace := trace w ++ [GetItem key] |}).

Definition AsyncStorage_setItem (key value : string) : M UI unit :=
  fun w =>
    (Fulfilled tt,
     {| ui := ui w; storage := <[key := value]> (storage w);
        trace := trace w ++ [SetItem key value] |}).

(** ** axios *)

Definition axios_get (net : Network) (url x_apikey : string) : M UI ResponseBody :=
  fun w =>
    (net url,
     {| ui := ui w; storage := storage w;
        trace := trace w ++ [HttpGet url x_apikey] |}).
End Effects.

Declare Scope M_scope.
Delimit Scope M_scope with M.
Notation "x <- c ;; k" := (bind c (fun x => k))
  (at level 100, c at next level, k at level 200, right associativity) : M_scope.
Notation "c ;; k" := (bind c (fun _ => k))
  (at level 100, k at level 200, right associativity) : M_scope.

(* ===================================================================== *)
(** * The lookup, shared parts *)
(* ===================================================================== *)

(** [a || b] on a string that may be null or absent: the empty string is
    falsy as well. *)
Definition or_else (a : option string) (b : string) : string :=
  match a with
  | Some s => if String.eqb s "" then b else s
  | None => b
  end.

(** [if (cachedResult)]: the stored text when it is truthy. *)
Definition truthy (cachedResult : option string) : option string :=
  match cachedResult with
  | Some s => if String.eqb s "" then None else Some s
  | None => None
  end.

(** The callback of [Object.entries(analysisResults).map]. *)
Definition to_vendor (entry : string * EngineVerdict) : Vendor :=
  let '(vendor, data) := entry in
  {| vendor := vendor;
     result := or_else (engine_result data) "Clean";
     category := engine_category data |}.

(** The text after the ['VirusTotal Error: '] prefix. *)
Definition error_text (err : JSError) : string :=
  or_else (response_data_error_message err) (message err).

Definition files_url (hash : string) : string :=
  "https://www.virustotal.com/api/v3/files/" ++ hash.

Section Lookup.
Context `{Runtime} {UI : Type}.
Local Open Scope M_scope.

Definition TypeError (kind : TypeErrorKind) : JSError :=
  {| response_data_error_message := None; message := TypeError_message kind |}.

(** [response.data.data.attributes] *)
Definition read_attributes (body : ResponseBody) : M UI Attributes :=
  match body with
  | Some attributes => ret attributes
  | None => await (Rejected (TypeError ReadPropertyOfUndefined))
  end.

Definition Object_entries {A} (o : option (list (string * A))) : M UI (list (string * A)) :=
  match o with
  | Some entries => ret entries
  | None => await (Rejected (TypeError ConvertUndefinedToObject))
  end.

(** From [axios.get] to the [resultData] literal: the request and the
    normalization of its response. *)
Definition fetch_report (net : Network) (hash : string) : M UI ScanResult :=
  response <- axios_get net (files_url hash) VIRUSTOTAL_API_KEY ;;
  attributes <- read_attributes response ;;
  let analysisResults := last_analysis_results attributes in
  let stats := last_analysis_stats attributes in
  entries <- Object_entries analysisResults ;;
  ret {| stats := stats; vendors := map to_vendor entries |}.
End Lookup.

(** [/^[a-fA-F0-9]{64}$/]: the character class, and the class repeated
    [n] times between the two anchors. *)
Definition hex_class (c : ascii) : bool :=
  let n := N_of_ascii c in
  ((97 <=? n) && (n <=? 102) || (65 <=? n) && (n <=? 70) || (48 <=? n) && (n <=? 57))%N.

Fixpoint match_repeat (n : nat) (s : string) : bool :=
  match n, s with
  | O, EmptyString => true
  | S n', String c s' => hex_class c && match_repeat n' s'
  | _, _ => false
  end.

(** [s.match(/^[a-fA-F0-9]{64}$/)] is not null. *)
Definition matches_sha256 (s : string) : bool := match_repeat 64 s.
Arguments matches_sha256 : simpl never.

(** [String.prototype.toLowerCase], on the letters A to Z. *)
Definition lower_ascii (c : ascii) : ascii :=
  let n := N_of_ascii c in
  if ((65 <=? n) && (n <=? 90))%N then ascii_of_N (n + 32) else c.

Fixpoint toLowerCase (s : string) : string :=
  match s with
  | EmptyString => EmptyString
  | String c s' => String (lower_ascii c) (toLowerCase s')
  end.

(* ===================================================================== *)
(** * The hash screen *)
(* ===================================================================== *)

Module Home.
Record State := {
  shaInput : string;
  shaResults : option ScanResult;
  shaLoading : bool;
  shaError : string;
  progressAnim : Q;   (* the value the progress bar animates to *)
}.

Definition setShaResults (r : ScanResult) : M State unit :=
  bind (emit (SetResults r)) (fun _ =>
  set_ui (fun s =>
    {| shaInput := shaInput s; shaResults := Some r; shaLoading := shaLoading s;
       shaError := shaError s; progressAnim := progressAnim s |})).

Definition setShaLoading (b : bool) : M State unit :=
  set_ui (fun s =>
    {| shaInput := shaInput s; shaResults := shaResults s; shaLoading := b;
       shaError := shaError s; progressAnim := progressAnim s |}).

Definition setShaError (msg : string) : M State unit :=
  bind (emit (SetError msg)) (fun _ =>
  set_ui (fun s =>
    {| shaInput := shaInput s; shaResults := shaResults s; shaLoading := shaLoading s;
       shaError := msg; progressAnim := progressAnim s |})).

Definition animateProgress (toValue : Q) : M State unit :=
  set_ui (fun s =>
    {| shaInput := shaInput s; shaResults := shaResults s; shaLoading := shaLoading s;
       shaError := shaError s; progressAnim := toValue |}).

Section WithRuntime.
Context `{Runtime}.
Local Open Scope M_scope.

Definition checkHash (net : Network) : M State unit :=
  s <- get_ui ;;
  let shaInput := shaInput s in
  if negb (matches_sha256 shaInput) then
    setShaError "Invalid SHA256 format" ;;
    animateProgress 0
  else
    finally
      (try_catch
         (setShaLoading true ;;
          setShaError "" ;;
          animateProgress (3 # 10) ;;
          cachedResult <- AsyncStorage_getItem shaInput ;;
          match truthy cachedResult with
          | Some cachedResult =>
              parsed <- await (JSON_parse cachedResult) ;;
              setShaResults parsed ;;
              animateProgress 1
          | None =>
              resultData <- fetch_report net shaInput ;;
              AsyncStorage_setItem shaInput (JSON_stringify resultData) ;;
              setShaResults resultData ;;
              animateProgress 1
          end)
         (fun err =>
            setShaError ("VirusTotal Error: " ++ error_text err) ;;
            animateProgress 0))
      (setShaLoading false).

(** The screen after the user has typed [input] and pressed the button. *)
Definition enter_hash (input : string) : M State unit :=
  set_ui (fun s =>
    {| shaInput := input; shaResults := shaResults s; shaLoading := shaLoading s;
       shaError := shaError s; progressAnim := progressAnim s |}).

Definition lookup (net : Network) (input : string) : M State unit :=
  enter_hash input ;; checkHash net.
End WithRuntime.

Definition pieData {N} `{Number N} (theme : ThemeColors) (shaResults : option ScanResult)
    : list (SliceData N) :=
  match shaResults with
  | Some r =>
      [ {| value := num_of_Z (malicious (stats r)); color := danger theme |};
        {| value := num_of_Z (suspicious (stats r)); color := "#FFC107" |};
        {| value := num_of_Z (harmless (stats r)); color := success theme |};
        {| value := num_of_Z (undetected (stats r)); color := "#999" |} ]
  | None => []
  end.

Definition initial : State :=
  {| shaInput := ""; shaResults := None; shaLoading := false; shaError := "";
     progressAnim := 0 |}.
End Home.

(* ===================================================================== *)
(** * The file screen ([explore.tsx]) *)
(* ===================================================================== *)

Module Explore.
Record FileResult := {
  name : string;
  size : Z;
  uri : string;
}.

Record State := {
  file : option FileResult;
  results : option ScanResult;
  loading : bool;
  error : string;
}.

(** ** The collaborators of the file flow *)

(** An element of [result.assets]; [asset_size] is [None] when the picker
    reports no size. *)
Record Asset := {
  asset_name : string;
  asset_size : option Z;
  asset_uri : string;
}.

(** The picker's result; [assets] is [None] when the user cancels. *)
Record DocumentPickerResult := {
  assets : option (list Asset);
}.

(** A blob, as a [FileReader] sees it: [readAsText] ends in the [load]
    event with the text as [reader.result], or, for [None], in the
    [error] event. *)
Record Blob := {
  readAsText : option string;
}.

(** The response of [fetch(fileUri)] with what [response.blob()] settles
    to. *)
Record FetchResponse := {
  blob : Settled Blob;
}.

Record Device := {
  getDocumentAsync : Settled DocumentPickerResult;
  fetch : string -> Settled FetchResponse;
  digestStringAsync : string -> Settled string;   (* SHA256 of the string *)
}.

Definition setFile (f : FileResult) : M State unit :=
  set_ui (fun s =>
    {| file := Some f; results := results s; loading := loading s; error := error s |}).

Definition setResults (r : ScanResult) : M State unit :=
  bind (emit (SetResults r)) (fun _ =>
  set_ui (fun s =>
    {| file := file s; results := Some r; loading := loading s; error := error s |})).

Definition setLoading (b : bool) : M State unit :=
  set_ui (fun s =>
    {| file := file s; results := results s; loading := b; error := error s |}).

Definition setError (msg : string) : M State unit :=
  bind (emit (SetError msg)) (fun _ =>
  set_ui (fun s =>
    {| file := file s; results := results s; loading := loading s; error := msg |})).

Section WithRuntime.
Context `{Runtime}.
Local Open Scope M_scope.

Definition checkVirusTotal (net : Network) (hash : string) : M State unit :=
  finally
    (try_catch
       (cachedResult <- AsyncStorage_getItem hash ;;
        match truthy cachedResult with
        | Some cachedResult =>
            parsed <- await (JSON_parse cachedResult) ;;
            setResults parsed ;;
            setLoading false
        | None =>
            resultData <- fetch_report net hash ;;
            AsyncStorage_setItem hash (JSON_stringify resultData) ;;
            setResults resultData
        end)
       (fun err => setError ("VirusTotal Error: " ++ error_text err)))
    (setLoading false).

(** [generateHash].  The [try] block ends when [reader.readAsText] has
    been called; its [catch] covers the two awaits before it.  The
    reader then fires [load], whose async handler runs the digest and
    starts the lookup, or [error], for which no handler is installed. *)
Definition generateHash (dev : Device) (net : Network) (fileUri : string)
    : M State unit :=
  reading <-
    try_catch
      (setLoading true ;;
       response <- await (fetch dev fileUri) ;;
       fileData <- await (blob response) ;;
       ret (Some fileData))
      (fun err =>
         setError ("Error generating hash: " ++ message err) ;;
         setLoading false ;;
         ret None) ;;
  match reading with
  | Some fileData =>
      match readAsText fileData with
      | Some reader_result =>
          detached
            (hash <- await (digestStringAsync dev reader_result) ;;
             detached (checkVirusTotal net hash))
      | None => ret tt
      end
  | None => ret tt
  end.

Definition pickDocument (dev : Device) (net : Network) : M State unit :=
  try_catch
    (result <- await (getDocumentAsync dev) ;;
     match assets result with
     | Some (selectedFile :: _) =>
         setFile {| name := asset_name selectedFile;
                    size := match asset_size selectedFile with
                            | Some n => if (n =? 0)%Z then 0 else n
                            | None => 0
                            end;
                    uri := asset_uri selectedFile |} ;;
         setError "" ;;
         detached (generateHash dev net (asset_uri selectedFile))
     | _ => ret tt
     end)
    (fun err => setError ("Error picking file: " ++ message err)).
End WithRuntime.

Definition pieData {N} `{Number N} (theme : ThemeColors) (results : option ScanResult)
    : list (SliceData N) :=
  match results with
  | Some r =>
      [ {| value := num_of_Z (malicious (stats r)); color := danger theme |};
        {| value := num_of_Z (suspicious (stats r)); color := "#FFC107" |};
        {| value := num_of_Z (harmless (stats r)); color := success theme |};
        {| value := num_of_Z (undetected (stats r)); color := "#9E9E9E" |} ]
  | None => []
  end.

Definition initial : State :=
  {| file := None; results := None; loading := false; error := "" |}.
End Explore.

(** A world with [AsyncStorage] holding [store] and no event yet. *)
Definition world {UI} (s : UI) (store : gmap string string) : World UI :=
  {| ui := s; storage := store; trace := [] |}.

(** The network requests among the events. *)
Definition is_HttpGet (e : Event) : bool :=
  match e with HttpGet _ _ => true | _ => false end.

Definition http_calls (t : list Event) : nat := length (List.filter is_HttpGet t).

(** The messages shown to the user: [setError] with a non-empty text. *)
Definition is_message (e : Event) : bool :=
  match e with SetError msg => negb (String.eqb msg "") | _ => false end.

(* ===================================================================== *)
(** * Where the chart lands on the screen *)
(* ===================================================================== *)

Module Geometry.
Local Open Scope R_scope.

Definition polarToCartesian (centerX centerY radius angleInDegrees : R) : R * R :=
  let angleInRadians := ((angleInDegrees - 90) * PI) / 180 in
  (centerX + radius * cos angleInRadians,
   centerY + radius * sin angleInRadians).

(** The transform of [<G rotation={…} origin={…}>]: a rotation about
    [origin] by [rotation] degrees, in the coordinates of the screen (x to
    the right, y downwards), so that a positive angle turns clockwise. *)
Definition rotate (rotation : R) (origin p : R * R) : R * R :=
  let a := rotation * PI / 180 in
  let '(ox, oy) := origin in
  let '(px, py) := p in
  (ox + (px - ox) * cos a - (py - oy) * sin a,
   oy + (px - ox) * sin a + (py - oy) * cos a).

(** The point of the circle straight above the centre, and the one to its
    left. *)
Definition twelve_oclock (centre : R * R) (radius : R) : R * R :=
  (fst centre, snd centre - radius).

Definition nine_oclock (centre : R * R) (radius : R) : R * R :=
  (fst centre - radius, snd centre).

(** The end point of a path's arc, [polarToCartesian(x, y, radius,
    startAngle)]: where the slice begins. *)
Definition start_point (p : Path xnum) : option (R * R) :=
  match arc_x (d p), arc_y (d p), arc_radius (d p), startAngle (d p) with
  | Fin x, Fin y, Fin r, Fin a =>
      Some (polarToCartesian (Q2R x) (Q2R y) (Q2R r) (Q2R a))
  | _, _, _, _ => None
  end.

(** A point of a path, as drawn: through the rotation of the group. *)
Definition on_screen (svg : Svg xnum) (pt : R * R) : option (R * R) :=
  match g_origin svg with
  | (Fin ox, Fin oy) => Some (rotate (IZR (g_rotation svg)) (Q2R ox, Q2R oy) pt)
  | _ => None
  end.

(** Where the first slice of a chart begins on the screen. *)
Definition chart_start (svg : Svg xnum) : option (R * R) :=
  match paths svg with
  | p :: _ =>
      match start_point p with
      | Some pt => on_screen svg pt
      | None => None
      end
  | [] => None
  end.
End Geometry.

(* ===================================================================== *)
(** * Sample data *)
(* ===================================================================== *)

Module Sample.
Definition dq : string := String (ascii_of_nat 34) EmptyString.

Definition json_string (s : string) : string := dq ++ s ++ dq.

Definition json_number (z : Z) : string := pretty z.

Definition json_field (key value : string) : string := json_string key ++ ":" ++ value.

Definition json_vendor (v : Vendor) : string :=
  "{" ++ json_field "vendor" (json_string (vendor v)) ++ ","
      ++ json_field "result" (json_string (result v)) ++ ","
      ++ json_field "category" (json_string (category v)) ++ "}".

Definition json_stats (s : Stats) : string :=
  "{" ++ json_field "malicious" (json_number (malicious s)) ++ ","
      ++ json_field "suspicious" (json_number (suspicious s)) ++ ","
      ++ json_field "undetected" (json_number (undetected s)) ++ ","
      ++ json_field "harmless" (json_number (harmless s)) ++ "}".

(** The JSON text of a result whose strings need no escape. *)
Definition json_ScanResult (r : ScanResult) : string :=
  "{" ++ json_field "stats" (json_stats (stats r)) ++ ","
      ++ json_field "vendors" ("[" ++ String.concat "," (map json_vendor (vendors r)) ++ "]")
      ++ "}".

Definition attributes : Attributes :=
  {| last_analysis_results :=
       Some [ ("EngineA", {| engine_result := Some "Trojan.Generic";
                             engine_category := "malicious" |});
              ("EngineB", {| engine_result := None;
                             engine_category := "undetected" |}) ];
     last_analysis_stats :=
       {| malicious := 3; suspicious := 1; undetected := 40; harmless := 10 |} |}.

Definition scan : ScanResult :=
  {| stats := last_analysis_stats attributes;
     vendors := [ {| vendor := "EngineA"; result := "Trojan.Generic"; category := "malicious" |};
                  {| vendor := "EngineB"; result := "Clean"; category := "undetected" |} ] |}.

(** A result with no detection and no engine. *)
Definition blank : ScanResult :=
  {| stats := {| malicious := 0; suspicious := 0; undetected := 0; harmless := 0 |};
     vendors := [] |}.

Lemma json_ScanResult_truthy (r : ScanResult) : json_ScanResult r <> "".
Proof. unfold json_ScanResult. simpl. discriminate. Qed.

(** A runtime whose [JSON.parse] knows the documents of the samples. *)
Definition documents : list ScanResult := [scan; blank].

#[export] Instance runtime : Runtime := {|
  JSON_stringify := json_ScanResult;
  JSON_parse := fun s =>
    match List.find (fun r => String.eqb (json_ScanResult r) s) documents with
    | Some r => Fulfilled r
    | None =>
        Rejected {| response_data_error_message := None;
                    message := "JSON Parse error: Unexpected token" |}
    end;
  TypeError_message := fun kind =>
    match kind with
    | ReadPropertyOfUndefined => "Cannot read property 'attributes' of undefined"
    | ConvertUndefinedToObject => "Cannot convert undefined or null to object"
    end;
  JSON_stringify_truthy := json_ScanResult_truthy;
|}.

(** The service knows every file and reports [attributes]. *)
Definition net_ok : Network := fun _ => Fulfilled (Some attributes).

(** The service answers 404 with an error body. *)
Definition net_not_found : Network := fun _ =>
  Rejected {| response_data_error_message := Some "File not found";
              message := "Request failed with status code 404" |}.

(** No connectivity. *)
Definition net_down : Network := fun _ =>
  Rejected {| response_data_error_message := None; message := "Network Error" |}.

Definition lower_hash : string := string_of_list_ascii (repeat "a"%char 64).
Definition upper_hash : string := string_of_list_ascii (repeat "A"%char 64).

Definition light : ThemeColors :=
  {| background := "#FFFFFF"; text := "#2D3436"; primary := "#6C5CE7";
     card := "#F8F9FA"; danger := "#D63031"; success := "#00B894" |}.
End Sample.

(* ===================================================================== *)
(** * What one lookup does, case by case *)
(* ===================================================================== *)

Section Outcomes.
Context `{Runtime}.

(** What the request and the normalization of its response come to, as a
    function of what the service answers. *)
Definition normalize (answer : Settled ResponseBody) : Settled ScanResult :=
  match answer with
  | Rejected err => Rejected err
  | Fulfilled None => Rejected (TypeError ReadPropertyOfUndefined)
  | Fulfilled (Some attributes) =>
      match last_analysis_results attributes with
      | None => Rejected (TypeError ConvertUndefinedToObject)
      | Some entries =>
          Fulfilled {| stats := last_analysis_stats attributes;
                       vendors := map to_vendor entries |}
      end
  end.

(** The events of one lookup of [hash] after the cache has been read. *)
Definition lookup_events (net : Network) (store : gmap string string) (hash : string)
    : list Event :=
  match truthy (store !! hash) with
  | Some cachedResult =>
      match JSON_parse cachedResult with
      | Fulfilled parsed => [SetResults parsed]
      | Rejected err => [SetError ("VirusTotal Error: " ++ error_text err)]
      end
  | None =>
      HttpGet (files_url hash) VIRUSTOTAL_API_KEY ::
      match normalize (net (files_url hash)) with
      | Fulfilled resultData =>
          [SetItem hash (JSON_stringify resultData); SetResults resultData]
      | Rejected err => [SetError ("VirusTotal Error: " ++ error_text err)]
      end
  end.

(** The store after one lookup of [hash]. *)
Definition lookup_storage (net : Network) (store : gmap string string) (hash : string)
    : gmap string string :=
  match truthy (store !! hash) with
  | Some _ => store
  | None =>
      match normalize (net (files_url hash)) with
      | Fulfilled resultData => <[hash := JSON_stringify resultData]> store
      | Rejected _ => store
      end
  end.

(** What one lookup of [hash] shows: a result or an error text. *)
Definition lookup_verdict (net : Network) (store : gmap string string) (hash : string)
    : Settled ScanResult :=
  match truthy (store !! hash) with
  | Some cachedResult => JSON_parse cachedResult
  | None => normalize (net (files_url hash))
  end.
End Outcomes.

(* ===================================================================== *)
(** * Lookup flows and their properties *)
(* ===================================================================== *)

(** The events an interaction adds to the trace. *)
Definition events_of {UI A} (c : M UI A) (w : World UI) : list Event :=
  drop (length (trace w)) (trace (snd (c w))).

(** An entry point of the lookup: how it is run on a fingerprint, where it
    puts the result it displays, and which strings it lets through. *)
Record Flow (UI : Type) := {
  run : Network -> string -> M UI unit;
  shown : UI -> option ScanResult;
  accepts : string -> bool;
}.
Arguments run {UI} f net hash.
Arguments shown {UI} f s.
Arguments accepts {UI} f hash.

(** Every request in [events] comes after a read of the cache at [hash]. *)
Definition cache_read_first (hash : string) (events : list Event) : Prop :=
  forall pre url key post,
    events = (pre ++ HttpGet url key :: post)%list -> In (GetItem hash) pre.

(** The events before the read of the cache only clear the error text. *)
Definition quiet (prefix : list Event) : Prop :=
  Forall (fun e => e = SetError "") prefix.

(** [SetResults] does not occur in [events]. *)
Definition nothing_displayed (events : list Event) : Prop :=
  forall r, ~ In (SetResults r) events.

Section Flows.
Context `{Runtime}.

(** The hash-entry flow: the text is typed, then [checkHash] runs. *)
Definition hash_flow : Flow Home.State :=
  {| run := Home.lookup; shown := Home.shaResults; accepts := matches_sha256 |}.

(** The file-upload flow from the digest on: [checkVirusTotal]. *)
Definition file_flow : Flow Explore.State :=
  {| run := Explore.checkVirusTotal; shown := Explore.results;
     accepts := fun _ => true |}.

(** One lookup, from either screen, as a step on the contents of the
    store. *)
Inductive lookup_step : gmap string string -> gmap string string -> Prop :=
| step_hash (net : Network) (input : string) (w : World Home.State) :
    lookup_step (storage w) (storage (snd (Home.lookup net input w)))
| step_file (net : Network) (hash : string) (w : World Explore.State) :
    lookup_step (storage w) (storage (snd (Explore.checkVirusTotal net hash w))).

Section OneFlow.
Context {UI : Type} (F : Flow UI).

(** The cache is read before any request; a hit makes no request, leaves
    the store alone and displays what the stored text parses to; so two
    lookups of one fingerprint, the second a hit, make at most one request,
    and when the first fetched its result the second displays the same
    result as soon as the codec reads back what it wrote. *)
Definition cache_idempotent : Prop :=
  forall (net : Network) (hash : string) (w : World UI),
    accepts F hash = true ->
    let w1 := snd (run F net hash w) in
    cache_read_first hash (events_of (run F net hash) w) /\
    (forall s, storage w !! hash = Some s -> s <> "" ->
       http_calls (events_of (run F net hash) w) = 0%nat /\
       storage w1 = storage w /\
       forall r, JSON_parse s = Fulfilled r -> shown F (ui w1) = Some r) /\
    (forall net2 s,
       let w2 := snd (run F net2 hash w1) in
       storage w1 !! hash = Some s -> s <> "" ->
       (http_calls (events_of (run F net hash) w)
          + http_calls (events_of (run F net2 hash) w1) <= 1)%nat /\
       (forall r, JSON_parse s = Fulfilled r -> shown F (ui w2) = Some r) /\
       (truthy (storage w !! hash) = None ->
          exists r1, s = JSON_stringify r1 /\ shown F (ui w1) = Some r1 /\
            (JSON_parse (JSON_stringify r1) = Fulfilled r1 ->
               shown F (ui w2) = shown F (ui w1)))).

(** A fetch that succeeds stores the normalized result under the
    fingerprint and displays it afterwards, nothing being displayed before;
    nothing else writes the store. *)
Definition cache_written_on_success : Prop :=
  forall (net : Network) (hash : string) (w : World UI),
    accepts F hash = true ->
    let w1 := snd (run F net hash w) in
    let events := events_of (run F net hash) w in
    (forall r, truthy (storage w !! hash) = None ->
       normalize (net (files_url hash)) = Fulfilled r ->
       exists pre,
         events = (pre ++ [SetItem hash (JSON_stringify r); SetResults r])%list /\
         nothing_displayed pre /\
         storage w1 = <[hash := JSON_stringify r]> (storage w) /\
         shown F (ui w1) = Some r) /\
    (forall key value, In (SetItem key value) events ->
       key = hash /\ truthy (storage w !! hash) = None /\
       exists r, normalize (net (files_url hash)) = Fulfilled r /\
                 value = JSON_stringify r) /\
    (forall err, normalize (net (files_url hash)) = Rejected err ->
       storage w1 = storage w).

(** One message, and no second request: a lookup makes at most one
    request, and one that fails after its request ends with a single
    message, the request not being repeated. *)
Definition fails_once : Prop :=
  forall (net : Network) (hash : string) (w : World UI),
    accepts F hash = true ->
    let events := events_of (run F net hash) w in
    (http_calls events <= 1)%nat /\
    (forall err, truthy (storage w !! hash) = None ->
       normalize (net (files_url hash)) = Rejected err ->
       exists pre,
         events = (pre ++ [HttpGet (files_url hash) VIRUSTOTAL_API_KEY;
                           SetError ("VirusTotal Error: " ++ error_text err)])%list /\
         http_calls pre = 0%nat /\
         length (List.filter is_message events) = 1%nat).

(** Once a fetch has stored its result, whatever lookups follow, from
    either screen, the entry is still there, and a lookup of the
    fingerprint makes no request, leaves the store alone and displays what
    that entry parses to. *)
Definition stored_verdict_stays : Prop :=
  forall (net : Network) (hash : string) (w : World UI) (r : ScanResult),
    accepts F hash = true ->
    truthy (storage w !! hash) = None ->
    normalize (net (files_url hash)) = Fulfilled r ->
    forall (later : World UI) (net' : Network),
      rtc lookup_step (storage (snd (run F net hash w))) (storage later) ->
      let w' := snd (run F net' hash later) in
      storage later !! hash = Some (JSON_stringify r) /\
      http_calls (events_of (run F net' hash) later) = 0%nat /\
      storage w' = storage later /\
      forall r', JSON_parse (JSON_stringify r) = Fulfilled r' ->
        shown F (ui w') = Some r'.
End OneFlow.

(** A flow that lets [hash] through does, after the events [prefix], one
    read of the cache and then what [lookup_events] lists. *)
Definition follows_lookup {UI} (F : Flow UI) (prefix : list Event) : Prop :=
  forall (net : Network) (hash : string) (w : World UI),
    accepts F hash = true ->
    let w1 := snd (run F net hash w) in
    events_of (run F net hash) w
      = (prefix ++ GetItem hash :: lookup_events net (storage w) hash)%list /\
    storage w1 = lookup_storage net (storage w) hash /\
    shown F (ui w1) =
      match lookup_verdict net (storage w) hash with
      | Fulfilled r => Some r
      | Rejected _ => shown F (ui w)
      end.
End Flows.

(** ** More samples: devices of the file flow *)

Module Devices.
Import Explore.

Definition picked : DocumentPickerResult :=
  {| assets := Some [ {| asset_name := "invoice.pdf"; asset_size := Some 2048;
                         asset_uri := "file:///invoice.pdf" |} ] |}.

Definition readable : FetchResponse :=
  {| blob := Fulfilled {| readAsText := Some "%PDF-1.4" |} |}.

Definition unreadable : FetchResponse :=
  {| blob := Fulfilled {| readAsText := None |} |}.

(** Everything works and the digest is [Sample.lower_hash]. *)
Definition working : Device :=
  {| getDocumentAsync := Fulfilled picked;
     fetch := fun _ => Fulfilled readable;
     digestStringAsync := fun _ => Fulfilled Sample.lower_hash |}.

(** The digest is rejected. *)
Definition digest_fails : Device :=
  {| getDocumentAsync := Fulfilled picked;
     fetch := fun _ => Fulfilled readable;
     digestStringAsync := fun _ =>
       Rejected {| response_data_error_message := None;
                   message := "Digest failed" |} |}.

(** The reader cannot read the blob. *)
Definition reader_fails : Device :=
  {| getDocumentAsync := Fulfilled picked;
     fetch := fun _ => Fulfilled unreadable;
     digestStringAsync := fun _ => Fulfilled Sample.lower_hash |}.

(** [fetch(fileUri)] is rejected. *)
Definition fetch_fails : Device :=
  {| getDocumentAsync := Fulfilled picked;
     fetch := fun _ =>
       Rejected {| response_data_error_message := None;
                   message := "Network request failed" |};
     digestStringAsync := fun _ => Fulfilled Sample.lower_hash |}.

(** The picker is rejected. *)
Definition picker_fails : Device :=
  {| getDocumentAsync :=
       Rejected {| response_data_error_message := None;
                   message := "Picker unavailable" |};
     fetch := fun _ => Fulfilled readable;
     digestStringAsync := fun _ => Fulfilled Sample.lower_hash |}.
End Devices.

(* ===================================================================== *)
(** * What the screens render *)
(* ===================================================================== *)

(** What [useColorScheme()] returns when it is not null. *)
Inductive ColorScheme :=
| scheme_light
| scheme_dark.

(** ** The file screen *)

Module ExploreRender.
Definition themes_light : ThemeColors :=
  {| background := "#f5f5f5"; text := "#333"; primary := "#6C5CE7";
     card := "#ffffff"; danger := "#F44336"; success := "#4CAF50" |}.

Definition themes_dark : ThemeColors :=
  {| background := "#2D3436"; text := "#FFFFFF"; primary := "#6C5CE7";
     card := "#404040"; danger := "#F44336"; success := "#4CAF50" |}.

(** [themes[useColorScheme() || 'light']] *)
Definition theme_of (colorScheme : option ColorScheme) : ThemeColors :=
  match colorScheme with
  | Some scheme_dark => themes_dark
  | Some scheme_light | None => themes_light
  end.

(** [severityColor]: a [switch] on the level, by strict equality. *)
Definition severityColor (level : string) : string :=
  if String.eqb level "Clean" then "#4CAF50"
  else if String.eqb level "Low Risk" then "#FFC107"
  else if String.eqb level "Moderate Risk" then "#FF9800"
  else if String.eqb level "High Risk" then "#F44336"
  else if String.eqb level "Critical Risk" then "#B71C1C"
  else "#9E9E9E".

(** What [AnimatedVendorCard] puts on the screen. *)
Record VendorCardView := {
  backgroundColor : string;
  vendorName : string;
  iconColor : string;
  vendorResult : string;
  vendorCategory : string;
  delay : Z;
}.

Definition AnimatedVendorCard (vendor : Vendor) (delay : Z) : VendorCardView :=
  let '{| vendor := name; result := result; category := category |} := vendor in
  let is_malicious := String.eqb category "malicious" in
  {| backgroundColor := if is_malicious then "#ffebee" else "#e8f5e9";
     vendorName := name;
     iconColor := if is_malicious then "#F44336" else "#4CAF50";
     vendorResult := "Result: " ++ or_else (Some result) "Clean";
     vendorCategory := "Category: " ++ category;
     delay := delay |}.

(** The part of the screen under the button: the error text, the results,
    or nothing. *)
Inductive Body (N : Type) :=
| ErrorText (error : string)
| Results (severity severity_color : string) (pieData : list (SliceData N))
    (stats : Stats) (cards : list VendorCardView)
| NoBody.
Arguments ErrorText {N} error.
Arguments Results {N} severity severity_color pieData stats cards.
Arguments NoBody {N}.

Record Screen (N : Type) := {
  buttonText : string;
  disabled : bool;
  fileInfo : option Explore.FileResult;
  activityIndicator : bool;
  body : Body N;
}.
Arguments buttonText {N} s.
Arguments disabled {N} s.
Arguments fileInfo {N} s.
Arguments activityIndicator {N} s.
Arguments body {N} s.

(** The JSX that [FileScannerScreen] returns, for the state [s]. *)
Definition render {N} `{Number N} (colorScheme : option ColorScheme)
    (s : Explore.State) : Screen N :=
  let theme := theme_of colorScheme in
  {| buttonText := match Explore.file s with
                   | Some _ => "Reselect File"
                   | None => "Select File"
                   end;
     disabled := Explore.loading s;
     fileInfo := Explore.file s;
     activityIndicator := Explore.loading s;
     body :=
       if negb (String.eqb (Explore.error s) "") then ErrorText (Explore.error s)
       else
         match Explore.results s with
         | Some results =>
             Results
               ("Severity: " ++ getSeverityLevel (Some results))
               (severityColor (getSeverityLevel (Some results)))
               (Explore.pieData theme (Some results))
               (stats results)
               (imap (fun index vendor =>
                        AnimatedVendorCard vendor (Z.of_nat index * 150))
                     (vendors results))
         | None => NoBody
         end |}.
End ExploreRender.

(** ** The hash screen *)

Module HomeRender.
Definition themes_light : ThemeColors :=
  {| background := "#FFFFFF"; text := "#2D3436"; primary := "#6C5CE7";
     card := "#F8F9FA"; danger := "#D63031"; success := "#00B894" |}.

Definition themes_dark : ThemeColors :=
  {| background := "#2D3436"; text := "#FFFFFF"; primary := "#A8A4FF";
     card := "#404040"; danger := "#FF7675"; success := "#55EFC4" |}.

(** [themes[useColorScheme() || 'light']] *)
Definition theme_of (colorScheme : option ColorScheme) : ThemeColors :=
  match colorScheme with
  | Some scheme_dark => themes_dark
  | Some scheme_light | None => themes_light
  end.

Definition severityColor (level : string) (theme : ThemeColors) : string :=
  if String.eqb level "Clean" then success theme
  else if String.eqb level "Low Risk" then "#FFC107"
  else if String.eqb level "Moderate Risk" then "#FF9800"
  else if String.eqb level "High Risk" then danger theme
  else if String.eqb level "Critical Risk" then "#B71C1C"
  else "#999".

(** What [StatBox] puts on the screen. *)
Record StatBoxView := {
  statValue : Z;
  statLabel : string;
  statColor : string;
}.

Definition StatBox (value : Z) (label color : string) : StatBoxView :=
  {| statValue := value; statLabel := label; statColor := color |}.

(** What [AnimatedVendorCard], a [VendorCard] that fades in after [delay],
    puts on the screen. *)
Record VendorCardView := {
  vendorName : string;
  statusDot : string;
  vendorResult : string;
  vendorCategory : string;
  delay : Z;
}.

Definition AnimatedVendorCard (vendor : Vendor) (theme : ThemeColors) (delay : Z)
    : VendorCardView :=
  let '{| vendor := name; result := result; category := category |} := vendor in
  {| vendorName := name;
     statusDot := if String.eqb category "malicious" then danger theme
                  else success theme;
     vendorResult := or_else (Some result) "No issues found";
     vendorCategory := category;
     delay := delay |}.

(** The result card, drawn with the opacity [progressAnim]. *)
Record ResultCard (N : Type) := {
  opacity : Q;
  severityText : string;
  shieldColor : string;
  pie : list (SliceData N);
  statsGrid : list StatBoxView;
  vendorCards : list VendorCardView;
}.
Arguments opacity {N} r.
Arguments severityText {N} r.
Arguments shieldColor {N} r.
Arguments pie {N} r.
Arguments statsGrid {N} r.
Arguments vendorCards {N} r.

(** The part of the screen under the progress bar: the error card, the
    result card, or nothing. *)
Inductive Body (N : Type) :=
| ErrorCard (errorText : string)
| Result (card : ResultCard N)
| NoBody.
Arguments ErrorCard {N} errorText.
Arguments Result {N} card.
Arguments NoBody {N}.

Record Screen (N : Type) := {
  inputValue : string;
  buttonText : string;
  disabled : bool;
  progressBar : Q;
  body : Body N;
}.
Arguments inputValue {N} s.
Arguments buttonText {N} s.
Arguments disabled {N} s.
Arguments progressBar {N} s.
Arguments body {N} s.

(** The JSX that [HomeScreen] returns, for the state [s]. *)
Definition render {N} `{Number N} (colorScheme : option ColorScheme)
    (s : Home.State) : Screen N :=
  let theme := theme_of colorScheme in
  {| inputValue := Home.shaInput s;
     buttonText := if Home.shaLoading s then "Analyzing..." else "Check Security";
     disabled := Home.shaLoading s;
     progressBar := Home.progressAnim s;
     body :=
       if negb (String.eqb (Home.shaError s) "") then ErrorCard (Home.shaError s)
       else
         match Home.shaResults s with
         | Some shaResults =>
             Result
               {| opacity := Home.progressAnim s;
                  severityText := getSeverityLevel (Some shaResults);
                  shieldColor := severityColor (getSeverityLevel (Some shaResults)) theme;
                  pie := Home.pieData theme (Some shaResults);
                  statsGrid :=
                    [ StatBox (malicious (stats shaResults)) "Malicious" (danger theme);
                      StatBox (suspicious (stats shaResults)) "Suspicious" "#FFC107";
                      StatBox (harmless (stats shaResults)) "Harmless" (success theme);
                      StatBox (undetected (stats shaResults)) "Undetected" "#999" ];
                  vendorCards :=
                    imap (fun index vendor =>
                            AnimatedVendorCard vendor theme (Z.of_nat index * 150))
                         (vendors shaResults) |}
         | None => NoBody
         end |}.
End HomeRender.

(** ** The screens as the user drives them *)

Section Sessions.
Context `{Runtime}.

(** One press of the button on the hash screen, with some text typed
    before it, as a step on the state of the component.  The store is one
    that the lookups of the two screens have written since it was empty,
    and the service answers as [Network] has it: with a failure, or with a
    report that carries the counts. *)
Inductive home_step : Home.State -> Home.State -> Prop :=
| home_lookup (net : Network) (input : string) (w : World Home.State) :
    rtc lookup_step ∅ (storage w) ->
    home_step (ui w) (ui (snd (Home.lookup net input w))).

(** One lookup of the hash screen as a step on the contents of the store. *)
Inductive hash_lookup_step : gmap string string -> gmap string string -> Prop :=
| hash_lookup_step_intro (net : Network) (input : string) (w : World Home.State) :
    hash_lookup_step (storage w) (storage (snd (Home.lookup net input w))).
End Sessions.

(** Every vendor of the result has a result text. *)
Definition normalized (r : ScanResult) : Prop :=
  Forall (fun v => result v <> "") (vendors r).

(** The level of a result on the scale from 'Clean' (0) to 'Critical Risk'
    (4); 5 for any other text. *)
Definition severity_rank (level : string) : nat :=
  if String.eqb level "Clean" then 0
  else if String.eqb level "Low Risk" then 1
  else if String.eqb level "Moderate Risk" then 2
  else if String.eqb level "High Risk" then 3
  else if String.eqb level "Critical Risk" then 4
  else 5.

(** [malicious + suspicious] *)
Definition totalBad (r : ScanResult) : Z :=
  (malicious (stats r) + suspicious (stats r))%Z.

(** [String.prototype.toUpperCase], on the letters a to z. *)
Definition upper_ascii (c : ascii) : ascii :=
  let n := N_of_ascii c in
  if ((97 <=? n) && (n <=? 122))%N then ascii_of_N (n - 32) else c.

Fixpoint toUpperCase (s : string) : string :=
  match s with
  | EmptyString => EmptyString
  | String c s' => String (upper_ascii c) (toUpperCase s')
  end.

(** ** Points of a path *)

Module Arc.
Local Open Scope R_scope.

(** The first point of a path, [polarToCartesian(x, y, radius, endAngle)]:
    where the slice ends. *)
Definition end_point (p : Path xnum) : option (R * R) :=
  match arc_x (d p), arc_y (d p), arc_radius (d p), endAngle (d p) with
  | Fin x, Fin y, Fin r, Fin a =>
      Some (Geometry.polarToCartesian (Q2R x) (Q2R y) (Q2R r) (Q2R a))
  | _, _, _, _ => None
  end.

(** The square of the distance between two points. *)
Definition dist2 (p q : R * R) : R :=
  (fst p - fst q) * (fst p - fst q) + (snd p - snd q) * (snd p - snd q).

(** The point lies in the rectangle from (0, 0) to ([width], [height]). *)
Definition inside (width height : R) (p : R * R) : Prop :=
  0 <= fst p <= width /\ 0 <= snd p <= height.
End Arc.

(** A device whose picker is dismissed by the user. *)
Definition dismissed_picker : Explore.Device :=
  {| Explore.getDocumentAsync := Fulfilled {| Explore.assets := None |};
     Explore.fetch := Explore.fetch Devices.working;
     Explore.digestStringAsync := Explore.digestStringAsync Devices.working |}.

(** The [FileResult] that [pickDocument] keeps of a picked asset. *)
Definition file_of_asset (selectedFile : Explore.Asset) : Explore.FileResult :=
  {| Explore.name := Explore.asset_name selectedFile;
     Explore.size := match Explore.asset_size selectedFile with
                     | Some n => if (n =? 0)%Z then 0 else n
                     | None => 0
                     end;
     Explore.uri := Explore.asset_uri selectedFile |}.

(** What holds of the state of the hash screen however it is used. *)
Definition home_invariant (s : Home.State) : Prop :=
  Home.shaLoading s = false /\
  ((Home.shaError s = "" /\ Home.shaResults s = None /\ Home.progressAnim s = 0%Q) \/
   (Home.shaError s = "" /\ Home.shaResults s <> None /\ Home.progressAnim s = 1%Q) \/
   (Home.shaError s <> "" /\ Home.progressAnim s = 0%Q)).

Section StoreContents.
Context `{Runtime}.

(** Every entry is the text of a result that went through the
    normalization. *)
Definition written_by_lookups (store : gmap string string) : Prop :=
  forall key text,
    store !! key = Some text ->
    exists r, text = JSON_stringify r /\ normalized r.
End StoreContents.

(** What expo-crypto promises of [Crypto.digestStringAsync] with
    [CryptoDigestAlgorithm.SHA256]: a digest, when there is one, is 64
    hexadecimal characters. *)
Definition sha256_digests (dev : Explore.Device) : Prop :=
  forall text hash,
    Explore.digestStringAsync dev text = Fulfilled hash -> matches_sha256 hash = true.

(** The event reads or writes the cache, or asks the service, under a key
    that the pattern accepts; the other events have no key. *)
Definition well_keyed (e : Event) : Prop :=
  match e with
  | GetItem key | SetItem key _ => matches_sha256 key = true
  | HttpGet url _ => exists key, url = files_url key /\ matches_sha256 key = true
  | SetResults _ | SetError _ | UnhandledRejection _ => True
  end.

(* ===================================================================== *)
(** * Lists of events *)
(* ===================================================================== *)

Lemma events_of_app {UI A} (c : M UI A) (w : World UI) (events : list Event) :
  trace (snd (c w)) = (trace w ++ events)%list -> events_of c w = events.
Proof. unfold events_of. intros ->. apply drop_app_length. Qed.

Lemma http_calls_app (l1 l2 : list Event) :
  http_calls (l1 ++ l2) = (http_calls l1 + http_calls l2)%nat.
Proof. unfold http_calls. rewrite List.filter_app. apply length_app. Qed.

(** In a list cut in two ways, an element that marks the first cut lies
    before the second cut when the second mark is not seen before it. *)
Lemma mark_before {A} (l1 : list A) (a : A) (l2 pre : list A) (b : A) (post : list A) :
  (l1 ++ a :: l2 = pre ++ b :: post)%list -> ~ In b l1 -> a <> b -> In a pre.
Proof.
  revert pre. induction l1 as [|x l1 IH]; intros [|y pre] Heq Hnot Hne; simpl in *.
  - congruence.
  - injection Heq as -> _. now left.
  - injection Heq as -> _. tauto.
  - injection Heq as -> Heq. right. apply (IH pre Heq); tauto.
Qed.

Lemma truthy_Some (o : option string) (s : string) :
  o = Some s -> s <> "" -> truthy o = Some s.
Proof.
  intros -> Hs. unfold truthy. destruct (String.eqb_spec s ""); congruence.
Qed.

Lemma truthy_None (o : option string) (s : string) :
  truthy o = None -> o = Some s -> s = "".
Proof.
  intros Ht ->. unfold truthy in Ht. destruct (String.eqb_spec s ""); congruence.
Qed.

(* ===================================================================== *)
(** * Run equations *)
(* ===================================================================== *)

Section Runs.
Context `{Runtime}.

#[local] Arguments fetch_report : simpl never.

Lemma fetch_report_run {UI} (net : Network) (hash : string) (w : World UI) :
  fetch_report net hash w =
    (normalize (net (files_url hash)),
     {| ui := ui w; storage := storage w;
        trace := trace w ++ [HttpGet (files_url hash) VIRUSTOTAL_API_KEY] |}).
Proof.
  unfold fetch_report, bind, axios_get, normalize, read_attributes, Object_entries, ret, await.
  destruct (net (files_url hash)) as [[attributes|]|err]; cbn; try reflexivity.
  destruct (last_analysis_results attributes); reflexivity.
Qed.

(** [checkHash] on an input the pattern accepts. *)
Lemma checkHash_valid (net : Network) (w : World Home.State) :
  matches_sha256 (Home.shaInput (ui w)) = true ->
  Home.checkHash net w =
    (Fulfilled tt,
     let hash := Home.shaInput (ui w) in
     {| ui :=
          {| Home.shaInput := hash;
             Home.shaResults :=
               match lookup_verdict net (storage w) hash with
               | Fulfilled r => Some r
               | Rejected _ => Home.shaResults (ui w)
               end;
             Home.shaLoading := false;
             Home.shaError :=
               match lookup_verdict net (storage w) hash with
               | Fulfilled _ => ""
               | Rejected err => "VirusTotal Error: " ++ error_text err
               end;
             Home.progressAnim :=
               match lookup_verdict net (storage w) hash with
               | Fulfilled _ => 1%Q
               | Rejected _ => 0%Q
               end |};
        storage := lookup_storage net (storage w) hash;
        trace := trace w ++ SetError "" :: GetItem hash
                   :: lookup_events net (storage w) hash |}).
Proof.
  intros Hvalid. destruct w as [s store t]. cbn in *.
  unfold Home.checkHash, bind at 1. cbn. rewrite Hvalid. cbn.
  unfold lookup_verdict, lookup_storage, lookup_events.
  unfold finally, try_catch, bind, AsyncStorage_getItem. cbn.
  destruct (truthy (store !! Home.shaInput s)) as [c|] eqn:Hc; cbn.
  - destruct (JSON_parse c) as [r|err]; cbn; rewrite <- ?app_assoc; reflexivity.
  - rewrite fetch_report_run. cbn.
    destruct (normalize (net (files_url (Home.shaInput s)))) as [r|err]; cbn;
      rewrite <- ?app_assoc; reflexivity.
Qed.

(** [checkHash] on an input the pattern refuses. *)
Lemma checkHash_invalid (net : Network) (w : World Home.State) :
  matches_sha256 (Home.shaInput (ui w)) = false ->
  Home.checkHash net w =
    (Fulfilled tt,
     {| ui :=
          {| Home.shaInput := Home.shaInput (ui w);
             Home.shaResults := Home.shaResults (ui w);
             Home.shaLoading := Home.shaLoading (ui w);
             Home.shaError := "Invalid SHA256 format";
             Home.progressAnim := 0%Q |};
        storage := storage w;
        trace := trace w ++ [SetError "Invalid SHA256 format"] |}).
Proof.
  intros Hinvalid. destruct w as [s store t]. cbn in *.
  unfold Home.checkHash, bind at 1. cbn. rewrite Hinvalid. reflexivity.
Qed.

Lemma checkVirusTotal_run (net : Network) (hash : string) (w : World Explore.State) :
  Explore.checkVirusTotal net hash w =
    (Fulfilled tt,
     {| ui :=
          {| Explore.file := Explore.file (ui w);
             Explore.results :=
               match lookup_verdict net (storage w) hash with
               | Fulfilled r => Some r
               | Rejected _ => Explore.results (ui w)
               end;
             Explore.loading := false;
             Explore.error :=
               match lookup_verdict net (storage w) hash with
               | Fulfilled _ => Explore.error (ui w)
               | Rejected err => "VirusTotal Error: " ++ error_text err
               end |};
        storage := lookup_storage net (storage w) hash;
        trace := trace w ++ GetItem hash :: lookup_events net (storage w) hash |}).
Proof.
  destruct w as [s store t]. cbn.
  unfold Explore.checkVirusTotal, lookup_verdict, lookup_storage, lookup_events.
  unfold finally, try_catch, bind, AsyncStorage_getItem. cbn.
  destruct (truthy (store !! hash)) as [c|] eqn:Hc; cbn.
  - destruct (JSON_parse c) as [r|err]; cbn; rewrite <- ?app_assoc; reflexivity.
  - rewrite fetch_report_run. cbn.
    destruct (normalize (net (files_url hash))) as [r|err]; cbn;
      rewrite <- ?app_assoc; reflexivity.
Qed.
End Runs.

(* ===================================================================== *)
(** * Both flows at once *)
(* ===================================================================== *)

Section FlowSpec.
Context `{Runtime}.

Lemma hash_flow_follows : follows_lookup hash_flow [SetError ""].
Proof.
  intros net hash w Hok. cbn in Hok. cbn zeta.
  unfold hash_flow, run, shown, Home.lookup, bind, Home.enter_hash, set_ui.
  cbn [fst snd].
  match goal with |- context [Home.checkHash net ?w0] => set (w' := w0) end.
  assert (Hv : matches_sha256 (Home.shaInput (ui w')) = true) by exact Hok.
  split; [|split].
  - apply events_of_app. unfold Home.lookup, bind, Home.enter_hash, set_ui. fold w'.
    rewrite (checkHash_valid net w' Hv). reflexivity.
  - rewrite (checkHash_valid net w' Hv). reflexivity.
  - rewrite (checkHash_valid net w' Hv). cbn.
    destruct (lookup_verdict net (storage w) hash); reflexivity.
Qed.

Lemma file_flow_follows : follows_lookup file_flow [].
Proof.
  intros net hash w _. cbn zeta. unfold file_flow, run, shown.
  split; [|split].
  - apply events_of_app. rewrite checkVirusTotal_run. reflexivity.
  - rewrite checkVirusTotal_run. reflexivity.
  - rewrite checkVirusTotal_run. cbn.
    destruct (lookup_verdict net (storage w) hash); reflexivity.
Qed.

Lemma quiet_http_calls prefix : quiet prefix -> http_calls prefix = 0%nat.
Proof.
  induction 1 as [|e l He _ IH]; [reflexivity|]. subst e. exact IH.
Qed.

Lemma quiet_no_message prefix :
  quiet prefix -> length (List.filter is_message prefix) = 0%nat.
Proof.
  induction 1 as [|e l He _ IH]; [reflexivity|]. subst e. exact IH.
Qed.

Lemma quiet_only_SetError prefix e :
  quiet prefix -> In e prefix -> e = SetError "".
Proof. intros Hq Hin. exact (proj1 (List.Forall_forall _ _) Hq e Hin). Qed.

Lemma lookup_events_http_calls net store hash :
  (http_calls (lookup_events net store hash) <= 1)%nat.
Proof.
  unfold lookup_events.
  destruct (truthy (store !! hash)) as [c|].
  - destruct (JSON_parse c); cbn; lia.
  - destruct (normalize (net (files_url hash))); cbn; lia.
Qed.

Lemma lookup_events_hit net store hash s :
  store !! hash = Some s -> s <> "" ->
  http_calls (lookup_events net store hash) = 0%nat /\
  lookup_storage net store hash = store /\
  lookup_verdict net store hash = JSON_parse s.
Proof.
  intros Hs Hne. unfold lookup_events, lookup_storage, lookup_verdict.
  rewrite (truthy_Some _ _ Hs Hne). destruct (JSON_parse s); auto.
Qed.

Section Derived.
Context {UI : Type} (F : Flow UI) (prefix : list Event).
Hypothesis Hquiet : quiet prefix.
Hypothesis Hspec : follows_lookup F prefix.

Lemma follows_cache_read_first net hash w :
  accepts F hash = true ->
  cache_read_first hash (events_of (run F net hash) w).
Proof.
  intros Hok. destruct (Hspec net hash w Hok) as (Hev & _ & _).
  intros pre url key post Heq. rewrite Hev in Heq.
  apply (mark_before prefix (GetItem hash) _ pre (HttpGet url key) post Heq).
  - intros Hin. apply (quiet_only_SetError _ _ Hquiet) in Hin. discriminate.
  - discriminate.
Qed.

Lemma follows_http_calls net hash w :
  accepts F hash = true ->
  http_calls (events_of (run F net hash) w)
    = http_calls (lookup_events net (storage w) hash).
Proof.
  intros Hok. destruct (Hspec net hash w Hok) as (Hev & _ & _).
  rewrite Hev, http_calls_app, (quiet_http_calls _ Hquiet). reflexivity.
Qed.

Lemma follows_hit net hash w s :
  accepts F hash = true ->
  storage w !! hash = Some s -> s <> "" ->
  http_calls (events_of (run F net hash) w) = 0%nat /\
  storage (snd (run F net hash w)) = storage w /\
  forall r, JSON_parse s = Fulfilled r ->
    shown F (ui (snd (run F net hash w))) = Some r.
Proof.
  intros Hok Hs Hne.
  destruct (lookup_events_hit net _ _ _ Hs Hne) as (Hcalls & Hstore & Hverdict).
  destruct (Hspec net hash w Hok) as (_ & Hst & Hshown).
  rewrite (follows_http_calls net hash w Hok), Hst, Hshown, Hverdict.
  repeat split; auto. intros r ->. reflexivity.
Qed.

Lemma follows_cache_idempotent : cache_idempotent F.
Proof.
  intros net hash w Hok w1. split; [|split].
  - apply follows_cache_read_first, Hok.
  - intros s Hs Hne. apply (follows_hit net hash w s Hok Hs Hne).
  - intros net2 s w2 Hs Hne.
    destruct (follows_hit net2 hash w1 s Hok Hs Hne) as (Hcalls2 & _ & Hshown2).
    split; [|split].
    + fold w1. rewrite Hcalls2, (follows_http_calls net hash w Hok).
      pose proof (lookup_events_http_calls net (storage w) hash). lia.
    + exact Hshown2.
    + intros Hmiss.
      destruct (Hspec net hash w Hok) as (_ & Hst & Hshown). fold w1 in Hst, Hshown.
      unfold lookup_storage in Hst. unfold lookup_verdict in Hshown.
      rewrite Hmiss in Hst, Hshown.
      destruct (normalize (net (files_url hash))) as [r1|err].
      * exists r1. rewrite Hst, lookup_insert_eq in Hs. injection Hs as <-.
        repeat split; auto. intros Hround. rewrite Hshown. apply Hshown2, Hround.
      * rewrite Hst in Hs. pose proof (truthy_None _ _ Hmiss Hs). contradiction.
Qed.
End Derived.
End FlowSpec.

Section FlowSpecMore.
Context `{Runtime}.

Lemma lookup_storage_keeps net store hash key s :
  store !! key = Some s -> s <> "" ->
  lookup_storage net store hash !! key = Some s.
Proof.
  intros Hs Hne. unfold lookup_storage.
  destruct (truthy (store !! hash)) as [c|] eqn:Ht; [exact Hs|].
  destruct (normalize (net (files_url hash))) as [r|err]; [|exact Hs].
  destruct (decide (hash = key)) as [->|Hdiff].
  - pose proof (truthy_None _ _ Ht Hs). contradiction.
  - rewrite lookup_insert_ne; auto.
Qed.

Lemma Home_lookup_storage net input (w : World Home.State) :
  storage (snd (Home.lookup net input w)) =
    if matches_sha256 input then lookup_storage net (storage w) input
    else storage w.
Proof.
  unfold Home.lookup, bind, Home.enter_hash, set_ui. cbn [fst snd].
  match goal with |- context [Home.checkHash net ?w0] => set (w' := w0) end.
  destruct (matches_sha256 input) eqn:Hv.
  - rewrite (checkHash_valid net w' Hv). reflexivity.
  - rewrite (checkHash_invalid net w' Hv). reflexivity.
Qed.

(** A lookup never touches an entry that is there. *)
Lemma lookup_step_keeps store store' key s :
  lookup_step store store' ->
  store !! key = Some s -> s <> "" -> store' !! key = Some s.
Proof.
  intros Hstep Hs Hne. destruct Hstep as [net input w|net hash w].
  - rewrite Home_lookup_storage. destruct (matches_sha256 input); [|exact Hs].
    apply lookup_storage_keeps; assumption.
  - rewrite checkVirusTotal_run. cbn. apply lookup_storage_keeps; assumption.
Qed.

Lemma lookup_steps_keep store store' key s :
  rtc lookup_step store store' ->
  store !! key = Some s -> s <> "" -> store' !! key = Some s.
Proof.
  induction 1 as [|x y z Hxy _ IH]; intros Hs Hne; [exact Hs|].
  apply IH; [|exact Hne]. exact (lookup_step_keeps x y key s Hxy Hs Hne).
Qed.

Section DerivedMore.
Context {UI : Type} (F : Flow UI) (prefix : list Event).
Hypothesis Hquiet : quiet prefix.
Hypothesis Hspec : follows_lookup F prefix.

Lemma follows_cache_written_on_success : cache_written_on_success F.
Proof.
  intros net hash w Hok w1 events.
  destruct (Hspec net hash w Hok) as (Hev & Hst & Hshown).
  fold w1 in Hst, Hshown. fold events in Hev.
  unfold lookup_events in Hev. unfold lookup_storage in Hst.
  unfold lookup_verdict in Hshown.
  split; [|split].
  - intros r Hmiss Hr. rewrite Hmiss, Hr in *.
    exists (prefix ++ [GetItem hash; HttpGet (files_url hash) VIRUSTOTAL_API_KEY])%list.
    repeat split; auto.
    + rewrite Hev, <- app_assoc. reflexivity.
    + intros r' Hin. apply in_app_or in Hin as [Hin|Hin].
      * apply (quiet_only_SetError _ _ Hquiet) in Hin. discriminate.
      * cbn in Hin. intuition discriminate.
  - intros key value Hin. rewrite Hev in Hin.
    apply in_app_or in Hin as [Hin|Hin].
    { apply (quiet_only_SetError _ _ Hquiet) in Hin. discriminate. }
    destruct Hin as [Hin|Hin]; [discriminate|].
    destruct (truthy (storage w !! hash)) as [c|].
    + destruct (JSON_parse c); cbn in Hin; intuition discriminate.
    + destruct Hin as [Hin|Hin]; [discriminate|].
      destruct (normalize (net (files_url hash))) as [r|err]; cbn in Hin.
      * destruct Hin as [Hin|[Hin|[]]]; [|discriminate].
        injection Hin as <- <-. repeat split; auto. exists r. auto.
      * intuition discriminate.
  - intros err Hr. rewrite Hr in Hst.
    destruct (truthy (storage w !! hash)); exact Hst.
Qed.

Lemma follows_fails_once : fails_once F.
Proof.
  intros net hash w Hok events.
  destruct (Hspec net hash w Hok) as (Hev & _ & _). fold events in Hev.
  split.
  - unfold events. rewrite (follows_http_calls F prefix Hquiet Hspec net hash w Hok).
    apply lookup_events_http_calls.
  - intros err Hmiss Hr. unfold lookup_events in Hev. rewrite Hmiss, Hr in Hev.
    exists (prefix ++ [GetItem hash])%list. repeat split.
    + rewrite Hev, <- app_assoc. reflexivity.
    + rewrite http_calls_app, (quiet_http_calls _ Hquiet). reflexivity.
    + rewrite Hev, List.filter_app, length_app, (quiet_no_message _ Hquiet).
      reflexivity.
Qed.

Lemma follows_stored_verdict_stays : stored_verdict_stays F.
Proof.
  intros net hash w r Hok Hmiss Hr later net' Hlater w'.
  destruct (Hspec net hash w Hok) as (_ & Hst & _).
  unfold lookup_storage in Hst. rewrite Hmiss, Hr in Hst.
  assert (Hentry : storage later !! hash = Some (JSON_stringify r)).
  { apply (lookup_steps_keep _ _ hash _ Hlater).
    - rewrite Hst. apply lookup_insert_eq.
    - apply JSON_stringify_truthy. }
  split; [exact Hentry|].
  apply (follows_hit F prefix Hquiet Hspec net' hash later _ Hok Hentry).
  apply JSON_stringify_truthy.
Qed.
End DerivedMore.

Lemma quiet_hash_prefix : quiet [SetError ""].
Proof. repeat constructor. Qed.

Lemma quiet_file_prefix : quiet [].
Proof. constructor. Qed.
End FlowSpecMore.

(* ===================================================================== *)
(** * The severity classifier *)
(* ===================================================================== *)

(** C1.  [getSeverityLevel] is a function of the displayed result alone:
    without a result it answers 'Unknown'; with one, and
    [totalBad = malicious + suspicious], it answers 'Clean' at 0, 'Low Risk'
    from 1 to 2, 'Moderate Risk' from 3 to 5, 'High Risk' from 6 to 10 and
    'Critical Risk' above 10. *)
Theorem getSeverityLevel_table (results : option ScanResult) :
  match results with
  | None => getSeverityLevel results = "Unknown"
  | Some r =>
      let totalBad := (malicious (stats r) + suspicious (stats r))%Z in
      (totalBad = 0 -> getSeverityLevel results = "Clean") /\
      (1 <= totalBad <= 2 -> getSeverityLevel results = "Low Risk") /\
      (3 <= totalBad <= 5 -> getSeverityLevel results = "Moderate Risk") /\
      (6 <= totalBad <= 10 -> getSeverityLevel results = "High Risk") /\
      (10 < totalBad -> getSeverityLevel results = "Critical Risk")
  end.
Proof.
  destruct results as [r|]; [|reflexivity].
  cbn zeta. unfold getSeverityLevel.
  set (totalBad := (malicious (stats r) + suspicious (stats r))%Z).
  repeat split; intros Hrange;
    destruct (Z.eqb_spec totalBad 0); try lia; try reflexivity;
    destruct (Z.leb_spec totalBad 2); try lia; try reflexivity;
    destruct (Z.leb_spec totalBad 5); try lia; try reflexivity;
    destruct (Z.leb_spec totalBad 10); try lia; reflexivity.
Qed.

(** The result of the sample (3 malicious, 1 suspicious) is a moderate
    risk. *)
Lemma getSeverityLevel_table_witness :
  getSeverityLevel (Some Sample.scan) = "Moderate Risk".
Proof.
  pose proof (getSeverityLevel_table (Some Sample.scan)) as Htable.
  cbn zeta in Htable. destruct Htable as (_ & _ & Hmoderate & _).
  apply Hmoderate. cbn. lia.
Defined.

(** The boundaries of the table. *)
Example getSeverityLevel_boundaries :
  let level totalBad :=
    getSeverityLevel
      (Some {| stats := {| malicious := totalBad; suspicious := 0;
                           undetected := 0; harmless := 0 |};
               vendors := [] |}) in
  map level [0; 1; 2; 3; 5; 6; 10; 11]%Z =
    ["Clean"; "Low Risk"; "Low Risk"; "Moderate Risk"; "Moderate Risk";
     "High Risk"; "High Risk"; "Critical Risk"].
Proof. reflexivity. Qed.

(* ===================================================================== *)
(** * Validation of the fingerprint *)
(* ===================================================================== *)

Lemma match_repeat_spec (n : nat) (s : string) :
  match_repeat n s = true <->
  String.length s = n /\ Forall (fun c => hex_class c = true) (list_ascii_of_string s).
Proof.
  revert s. induction n as [|n IH]; intros [|c s]; cbn.
  - split; [intros _; split; [reflexivity|constructor]|reflexivity].
  - split; [discriminate|intros [Hlen _]; discriminate].
  - split; [discriminate|intros [Hlen _]; discriminate].
  - rewrite andb_true_iff, IH. split.
    + intros (Hc & Hlen & Hall). split; [congruence|]. constructor; assumption.
    + intros (Hlen & Hall). inversion Hall; subst. repeat split; congruence.
Qed.

(** The pattern accepts exactly the strings of 64 characters of the class. *)
Lemma matches_sha256_spec (s : string) :
  matches_sha256 s = true <->
  String.length s = 64%nat /\
  Forall (fun c => hex_class c = true) (list_ascii_of_string s).
Proof. apply match_repeat_spec. Qed.

Section Validation.
Context `{Runtime}.

Lemma Home_lookup_invalid net input (w : World Home.State) :
  matches_sha256 input = false ->
  Home.lookup net input w =
    (Fulfilled tt,
     {| ui :=
          {| Home.shaInput := input;
             Home.shaResults := Home.shaResults (ui w);
             Home.shaLoading := Home.shaLoading (ui w);
             Home.shaError := "Invalid SHA256 format";
             Home.progressAnim := 0%Q |};
        storage := storage w;
        trace := trace w ++ [SetError "Invalid SHA256 format"] |}).
Proof.
  intros Hv. unfold Home.lookup, bind, Home.enter_hash, set_ui. cbn [fst snd].
  match goal with |- context [Home.checkHash net ?w0] => set (w' := w0) end.
  rewrite (checkHash_invalid net w' Hv). reflexivity.
Qed.

End Validation.

(* ===================================================================== *)
(** * The cache *)
(* ===================================================================== *)

Section Cache.
Context `{Runtime}.

(** C3.  In both flows a lookup reads the cache before it sends any
    request; when the cache holds a text for the fingerprint the lookup
    sends no request, leaves the store as it is and displays the result
    that text parses to; two lookups of one fingerprint of which the second
    hits the cache send at most one request in all, and the second displays
    the result the first one fetched. *)
Theorem lookup_cache_idempotent :
  cache_idempotent hash_flow /\ cache_idempotent file_flow.
Proof.
  split.
  - exact (follows_cache_idempotent hash_flow _ quiet_hash_prefix hash_flow_follows).
  - exact (follows_cache_idempotent file_flow _ quiet_file_prefix file_flow_follows).
Qed.

(** C6.  In both flows a fetch that succeeds writes the text of the
    normalized result under the fingerprint and displays the result only
    afterwards; the store is written on that path alone, a failed fetch
    leaving it as it was; and no lookup, from either screen, changes an
    entry that is there, so every later lookup of the fingerprint displays
    that stored result without a request. *)
Theorem cache_written_once :
  (cache_written_on_success hash_flow /\ stored_verdict_stays hash_flow) /\
  (cache_written_on_success file_flow /\ stored_verdict_stays file_flow) /\
  (forall store store' key s,
      rtc lookup_step store store' ->
      store !! key = Some s -> s <> "" -> store' !! key = Some s).
Proof.
  split; [split|split; [split|]].
  - exact (follows_cache_written_on_success hash_flow _ quiet_hash_prefix hash_flow_follows).
  - exact (follows_stored_verdict_stays hash_flow _ quiet_hash_prefix hash_flow_follows).
  - exact (follows_cache_written_on_success file_flow _ quiet_file_prefix file_flow_follows).
  - exact (follows_stored_verdict_stays file_flow _ quiet_file_prefix file_flow_follows).
  - exact lookup_steps_keep.
Qed.

(** The lookup never retries: in both flows one lookup sends at most one
    request, and a fetch that fails ends the lookup with one message, right
    after the one request. *)
Theorem lookup_fails_once : fails_once hash_flow /\ fails_once file_flow.
Proof.
  split.
  - exact (follows_fails_once hash_flow _ quiet_hash_prefix hash_flow_follows).
  - exact (follows_fails_once file_flow _ quiet_file_prefix file_flow_follows).
Qed.
End Cache.

(** The sample fingerprint is looked up twice on the hash screen, first
    with the service answering, then with no connectivity: one request in
    all, and both lookups display the sample result. *)
Lemma lookup_cache_idempotent_witness :
  let w := world Home.initial ∅ in
  let first := Home.lookup (H := Sample.runtime) Sample.net_ok Sample.lower_hash in
  let second := Home.lookup (H := Sample.runtime) Sample.net_down Sample.lower_hash in
  let w1 := snd (first w) in
  let w2 := snd (second w1) in
  (http_calls (events_of first w) + http_calls (events_of second w1) <= 1)%nat /\
  Home.shaResults (ui w2) = Some Sample.scan /\
  Home.shaResults (ui w2) = Home.shaResults (ui w1).
Proof.
  cbn zeta.
  destruct (lookup_cache_idempotent (H := Sample.runtime)) as [Hhash _].
  destruct (Hhash Sample.net_ok Sample.lower_hash (world Home.initial ∅) eq_refl)
    as (_ & _ & Htwice).
  destruct (Htwice Sample.net_down (Sample.json_ScanResult Sample.scan)
              eq_refl (Sample.json_ScanResult_truthy Sample.scan))
    as (Hcalls & Hshown & Hfirst).
  split; [exact Hcalls|]. split.
  - exact (Hshown Sample.scan eq_refl).
  - destruct (Hfirst eq_refl) as (r1 & _ & Hr1 & Hsame).
    assert (Hscan : Some Sample.scan = Some r1) by exact Hr1.
    injection Hscan as <-. apply Hsame. reflexivity.
Defined.

(** The sample fingerprint is fetched on the hash screen; the file screen
    then looks up another fingerprint; back on the hash screen, without
    connectivity, the sample result is still there and is displayed. *)
Lemma cache_written_once_witness :
  let w := world Home.initial ∅ in
  let w1 := snd (Home.lookup (H := Sample.runtime) Sample.net_ok Sample.lower_hash w) in
  let elsewhere :=
    snd (Explore.checkVirusTotal (H := Sample.runtime) Sample.net_down
           Sample.upper_hash (world Explore.initial (storage w1))) in
  let later := world (ui w1) (storage elsewhere) in
  let again := Home.lookup (H := Sample.runtime) Sample.net_down Sample.lower_hash in
  storage w1 = {[ Sample.lower_hash := Sample.json_ScanResult Sample.scan ]} /\
  storage later !! Sample.lower_hash = Some (Sample.json_ScanResult Sample.scan) /\
  http_calls (events_of again later) = 0%nat /\
  Home.shaResults (ui (snd (again later))) = Some Sample.scan.
Proof.
  cbn zeta.
  destruct (cache_written_once (H := Sample.runtime)) as ((Hwrite & Hstays) & _).
  destruct (Hwrite Sample.net_ok Sample.lower_hash (world Home.initial ∅) eq_refl)
    as (Hsuccess & _).
  destruct (Hsuccess Sample.scan eq_refl eq_refl) as (pre & _ & _ & Hstore & _).
  split; [exact Hstore|].
  pose proof (Hstays Sample.net_ok Sample.lower_hash (world Home.initial ∅)
                Sample.scan eq_refl eq_refl eq_refl) as Hlater.
  match goal with
  | |- context [events_of _ ?w'] =>
      destruct (Hlater w' Sample.net_down) as (Hentry & Hcalls & _ & Hshown)
  end.
  - apply rtc_once.
    exact (step_file Sample.net_down Sample.upper_hash
             (world Explore.initial
                (storage (snd (Home.lookup (H := Sample.runtime) Sample.net_ok
                                 Sample.lower_hash (world Home.initial ∅)))))).
  - split; [exact Hentry|]. split; [exact Hcalls|]. exact (Hshown Sample.scan eq_refl).
Defined.

(** Without connectivity the sample lookup sends its one request and ends
    with one message. *)
Lemma lookup_fails_once_witness :
  let events :=
    events_of (Home.lookup (H := Sample.runtime) Sample.net_down Sample.lower_hash)
              (world Home.initial ∅) in
  (http_calls events <= 1)%nat /\
  length (List.filter is_message events) = 1%nat /\
  exists pre,
    events = (pre ++ [HttpGet (files_url Sample.lower_hash) VIRUSTOTAL_API_KEY;
                      SetError "VirusTotal Error: Network Error"])%list.
Proof.
  cbn zeta.
  destruct (lookup_fails_once (H := Sample.runtime)) as [Hhash _].
  destruct (Hhash Sample.net_down Sample.lower_hash (world Home.initial ∅) eq_refl)
    as (Hcalls & Hfail).
  destruct (Hfail _ eq_refl eq_refl) as (pre & Hevents & _ & Hmessages).
  split; [exact Hcalls|]. split; [exact Hmessages|].
  exists pre. exact Hevents.
Defined.

(* ===================================================================== *)
(** * Normalization *)
(* ===================================================================== *)

Lemma map_lookup {A B} (f : A -> B) (l : list A) (i : nat) :
  map f l !! i = option_map f (l !! i).
Proof.
  revert i. induction l as [|a l IH]; intros [|i]; cbn; auto.
Qed.

Section Normalization.
Context `{Runtime}.

(** C7.  When the service answers with its per-engine object, the result
    of the fetch carries the aggregate counts as received and one vendor
    per engine, in the order of the object's entries: entry [i] gives
    vendor [i] its engine name and its category, and its result text,
    which is 'Clean' when the engine's result is absent or empty.  Both
    flows display that result on a miss. *)
Theorem normalization_one_vendor_per_engine {UI} (net : Network) (hash : string)
    (w : World UI) (attributes : Attributes)
    (entries : list (string * EngineVerdict)) :
  net (files_url hash) = Fulfilled (Some attributes) ->
  last_analysis_results attributes = Some entries ->
  exists r,
    fst (fetch_report net hash w) = Fulfilled r /\
    stats r = last_analysis_stats attributes /\
    length (vendors r) = length entries /\
    (forall i engine data,
        entries !! i = Some (engine, data) ->
        exists v,
          vendors r !! i = Some v /\
          vendor v = engine /\
          category v = engine_category data /\
          (engine_result data = None \/ engine_result data = Some "" ->
             result v = "Clean") /\
          (forall s, engine_result data = Some s -> s <> "" -> result v = s)) /\
    (forall w0 : World Home.State,
        matches_sha256 hash = true -> truthy (storage w0 !! hash) = None ->
        Home.shaResults (ui (snd (Home.lookup net hash w0))) = Some r) /\
    (forall w0 : World Explore.State,
        truthy (storage w0 !! hash) = None ->
        Explore.results (ui (snd (Explore.checkVirusTotal net hash w0))) = Some r).
Proof.
  intros Hnet Hentries.
  exists {| stats := last_analysis_stats attributes; vendors := map to_vendor entries |}.
  assert (Hnorm : normalize (net (files_url hash)) =
                  Fulfilled {| stats := last_analysis_stats attributes;
                               vendors := map to_vendor entries |}).
  { unfold normalize. rewrite Hnet, Hentries. reflexivity. }
  split; [rewrite fetch_report_run; exact Hnorm|].
  split; [reflexivity|]. split; [apply length_map|]. split; [|split].
  - intros i engine data Hi. cbn [vendors].
    exists (to_vendor (engine, data)). rewrite map_lookup, Hi.
    repeat split.
    + intros [Hnone | Hempty]; cbn; [rewrite Hnone | rewrite Hempty]; reflexivity.
    + intros s Hs Hne. cbn. rewrite Hs. cbn.
      destruct (String.eqb_spec s ""); [contradiction|reflexivity].
  - intros w0 Hok Hmiss.
    destruct (hash_flow_follows net hash w0 Hok) as (_ & _ & Hshown).
    cbn [hash_flow run shown] in Hshown. rewrite Hshown. unfold lookup_verdict. rewrite Hmiss, Hnorm.
    reflexivity.
  - intros w0 Hmiss.
    destruct (file_flow_follows net hash w0 eq_refl) as (_ & _ & Hshown).
    cbn [file_flow run shown] in Hshown. rewrite Hshown. unfold lookup_verdict. rewrite Hmiss, Hnorm.
    reflexivity.
Qed.
End Normalization.

(** The two engines of the sample: the second reports no result and is
    normalized to 'Clean'. *)
Lemma normalization_one_vendor_per_engine_witness :
  exists r,
    fst (fetch_report (H := Sample.runtime) Sample.net_ok Sample.lower_hash
           (world Home.initial ∅)) = Fulfilled r /\
    length (vendors r) = 2%nat /\
    exists v, vendors r !! 1%nat = Some v /\ vendor v = "EngineB" /\ result v = "Clean".
Proof.
  destruct (normalization_one_vendor_per_engine (H := Sample.runtime)
              Sample.net_ok Sample.lower_hash (world Home.initial ∅)
              Sample.attributes _ eq_refl eq_refl)
    as (r & Hr & _ & Hlen & Hvendors & _).
  exists r. split; [exact Hr|]. split; [exact Hlen|].
  destruct (Hvendors 1%nat "EngineB"
              {| engine_result := None; engine_category := "undetected" |} eq_refl)
    as (v & Hv & Hname & _ & Hclean & _).
  exists v. split; [exact Hv|]. split; [exact Hname|]. apply Hclean. left. reflexivity.
Defined.

(* ===================================================================== *)
(** * The spelling of the fingerprint *)
(* ===================================================================== *)

Section Spelling.
Context `{Runtime}.

(** C10.  The class of the pattern holds the digits and the letters a to f
    in both cases.  An accepted input goes as it was typed into the key of
    the cache read, into the address of every request and into the key of
    every cache write.  So the two spellings [Sample.lower_hash] and
    [Sample.upper_hash] of one fingerprint are both accepted, and with a
    result stored under the lower-case one, the lookup of the lower-case
    spelling is answered from the cache while the lookup of the upper-case
    one sends a request and displays what the service answers, not what is
    stored. *)
Theorem hash_spelling_is_the_cache_key :
  (forall c, In c (list_ascii_of_string "0123456789abcdefABCDEF") ->
             hex_class c = true) /\
  (forall (net : Network) (input : string) (w : World Home.State),
      matches_sha256 input = true ->
      exists rest,
        events_of (Home.lookup net input) w
          = SetError "" :: GetItem input :: rest /\
        (forall url key, In (HttpGet url key) rest ->
           url = "https://www.virustotal.com/api/v3/files/" ++ input) /\
        (forall key value, In (SetItem key value) rest -> key = input)) /\
  matches_sha256 Sample.lower_hash = true /\
  matches_sha256 Sample.upper_hash = true /\
  toLowerCase Sample.upper_hash = Sample.lower_hash /\
  (forall (net : Network) (r : ScanResult) (w : World Home.State),
      storage w = {[ Sample.lower_hash := JSON_stringify r ]} ->
      http_calls (events_of (Home.lookup net Sample.lower_hash) w) = 0%nat /\
      In (HttpGet (files_url Sample.upper_hash) VIRUSTOTAL_API_KEY)
         (events_of (Home.lookup net Sample.upper_hash) w) /\
      Home.shaResults (ui (snd (Home.lookup net Sample.upper_hash w))) =
        match normalize (net (files_url Sample.upper_hash)) with
        | Fulfilled fetched => Some fetched
        | Rejected _ => Home.shaResults (ui w)
        end).
Proof.
  split; [|split; [|split; [|split; [|split]]]].
  - intros c Hin. cbn in Hin.
    repeat (destruct Hin as [<-|Hin]; [reflexivity|]). contradiction.
  - intros net input w Hok.
    destruct (hash_flow_follows net input w Hok) as (Hev & _ & _).
    cbn [hash_flow run] in Hev.
    exists (lookup_events net (storage w) input). split; [exact Hev|].
    unfold lookup_events. split.
    + intros url key Hin.
      destruct (truthy (storage w !! input)) as [c|].
      * destruct (JSON_parse c); cbn in Hin; intuition discriminate.
      * destruct Hin as [Hin|Hin]; [injection Hin as <- _; reflexivity|].
        destruct (normalize (net (files_url input))); cbn in Hin;
          intuition discriminate.
    + intros key value Hin.
      destruct (truthy (storage w !! input)) as [c|].
      * destruct (JSON_parse c); cbn in Hin; intuition discriminate.
      * destruct Hin as [Hin|Hin]; [discriminate|].
        destruct (normalize (net (files_url input))); cbn in Hin.
        -- destruct Hin as [Hin|Hin]; [injection Hin as <- _; reflexivity|].
           intuition discriminate.
        -- intuition discriminate.
  - reflexivity.
  - reflexivity.
  - reflexivity.
  - intros net r w Hstore.
    assert (Hlower : storage w !! Sample.lower_hash = Some (JSON_stringify r)).
    { rewrite Hstore. apply lookup_singleton_eq. }
    assert (Hupper : storage w !! Sample.upper_hash = None).
    { rewrite Hstore. apply lookup_singleton_ne. discriminate. }
    split; [|split].
    + exact (proj1 (follows_hit hash_flow _ quiet_hash_prefix hash_flow_follows
                      net Sample.lower_hash w _ eq_refl Hlower
                      (JSON_stringify_truthy r))).
    + destruct (hash_flow_follows net Sample.upper_hash w eq_refl) as (Hev & _ & _).
      cbn [hash_flow run] in Hev. rewrite Hev. unfold lookup_events.
      rewrite Hupper. cbn [truthy]. right. right. left. reflexivity.
    + destruct (hash_flow_follows net Sample.upper_hash w eq_refl) as (_ & _ & Hshown).
      cbn [hash_flow run shown] in Hshown. rewrite Hshown.
      unfold lookup_verdict. rewrite Hupper. reflexivity.
Qed.
End Spelling.

(** With the sample result stored under the lower-case spelling and no
    connectivity, the upper-case spelling ends in an error. *)
Lemma hash_spelling_is_the_cache_key_witness :
  let store : gmap string string :=
    {[ Sample.lower_hash := Sample.json_ScanResult Sample.scan ]} in
  let w := world Home.initial store in
  http_calls (events_of (Home.lookup (H := Sample.runtime) Sample.net_down
                           Sample.lower_hash) w) = 0%nat /\
  Home.shaResults
    (ui (snd (Home.lookup (H := Sample.runtime) Sample.net_down
                Sample.upper_hash w))) = None.
Proof.
  cbn zeta.
  destruct (hash_spelling_is_the_cache_key (H := Sample.runtime))
    as (_ & _ & _ & _ & _ & Hkeys).
  destruct (Hkeys Sample.net_down Sample.scan
              (world Home.initial
                 {[ Sample.lower_hash := Sample.json_ScanResult Sample.scan ]})
              eq_refl) as (Hcalls & _ & Hshown).
  split; [exact Hcalls|exact Hshown].
Defined.

(* ===================================================================== *)
(** * Failures of the file flow *)
(* ===================================================================== *)

(** C9, at the inputs where the code departs from it.  A file is picked,
    fetched and turned into a blob.  When the digest is rejected, or when
    the reader cannot read the blob, the interaction ends with no message:
    the error text is still empty, the spinner is still on, and the only
    events are the clearing of the error text and, for the digest, a
    rejection that nobody handles.  A rejected picker or a rejected
    [fetch] does end in a message. *)
Theorem hash_failure_shows_no_message :
  let after dev :=
    snd (Explore.pickDocument (H := Sample.runtime) dev Sample.net_ok
           (world Explore.initial ∅)) in
  (trace (after Devices.digest_fails)
     = [SetError "";
        UnhandledRejection {| response_data_error_message := None;
                              message := "Digest failed" |}] /\
   Explore.error (ui (after Devices.digest_fails)) = "" /\
   Explore.loading (ui (after Devices.digest_fails)) = true) /\
  (trace (after Devices.reader_fails) = [SetError ""] /\
   Explore.error (ui (after Devices.reader_fails)) = "" /\
   Explore.loading (ui (after Devices.reader_fails)) = true) /\
  (trace (after Devices.fetch_fails)
     = [SetError ""; SetError "Error generating hash: Network request failed"] /\
   Explore.loading (ui (after Devices.fetch_fails)) = false) /\
  trace (after Devices.picker_fails)
    = [SetError "Error picking file: Picker unavailable"] /\
  (trace (after Devices.working)
     = [SetError ""; GetItem Sample.lower_hash;
        HttpGet (files_url Sample.lower_hash) VIRUSTOTAL_API_KEY;
        SetItem Sample.lower_hash (Sample.json_ScanResult Sample.scan);
        SetResults Sample.scan] /\
   Explore.loading (ui (after Devices.working)) = false).
Proof. cbn zeta. repeat split; reflexivity. Qed.

Section FileFlowFailures.
Context `{Runtime}.

(** The same, for every device and every file: once the blob is there, a
    rejected digest leaves no message and the spinner on. *)
Lemma rejected_digest_is_dropped (dev : Explore.Device) (net : Network)
    (w : World Explore.State) (selectedFile : Explore.Asset)
    (others : list Explore.Asset) (reader_result : string) (err : JSError) :
  Explore.getDocumentAsync dev =
    Fulfilled {| Explore.assets := Some (selectedFile :: others) |} ->
  Explore.fetch dev (Explore.asset_uri selectedFile) =
    Fulfilled {| Explore.blob :=
                   Fulfilled {| Explore.readAsText := Some reader_result |} |} ->
  Explore.digestStringAsync dev reader_result = Rejected err ->
  let w1 := snd (Explore.pickDocument dev net w) in
  events_of (Explore.pickDocument dev net) w = [SetError ""; UnhandledRejection err] /\
  Explore.error (ui w1) = "" /\
  Explore.loading (ui w1) = true /\
  storage w1 = storage w.
Proof.
  intros Hpick Hfetch Hdigest w1. unfold w1. destruct w as [s store t].
  unfold events_of, Explore.pickDocument, Explore.generateHash.
  unfold try_catch, detached, bind, await. cbn.
  rewrite Hpick. cbn. rewrite Hfetch. cbn. rewrite Hdigest. cbn.
  rewrite <- app_assoc, drop_app_length. repeat split.
Qed.
End FileFlowFailures.

(* ===================================================================== *)
(** * The chart in binary64 *)
(* ===================================================================== *)

(** C4, at the input where the code departs from it: the chart of a result
    whose four counts are zero.  The total is 0 and each slice divides its
    value by it; the set of slices is not empty, and at the start and at
    the end of the animation the angle every slice sweeps is NaN and no
    slice sweeps zero (each path is given the large-arc flag 1). *)
Theorem zero_total_chart_sweeps_NaN :
  let data := Home.pieData (N := float) Sample.light (Some Sample.blank) in
  let chart progress := AnimatedPieChart data 200%float 200%float 90%float progress in
  total data = 0%float /\
  map value data = [0; 0; 0; 0]%float /\
  length (paths (chart 1%float)) = 4%nat /\
  forallb (fun p => PrimFloat.is_nan (span p)) (paths (chart 0%float)) = true /\
  forallb (fun p => PrimFloat.is_nan (span p)) (paths (chart 1%float)) = true /\
  existsb (fun p => PrimFloat.eqb (span p) 0%float) (paths (chart 0%float)) = false /\
  existsb (fun p => PrimFloat.eqb (span p) 0%float) (paths (chart 1%float)) = false /\
  map (fun p => largeArcFlag (d p)) (paths (chart 1%float)) = ["1"; "1"; "1"; "1"].
Proof. cbn zeta. repeat split; vm_compute; reflexivity. Qed.

(** C8, at the input where the code departs from it: the animation of the
    chart of a result whose four counts are zero, in binary64.  The full
    angle of every slice is (0 / 0) * 360 = NaN, and the running sum of the
    full angles is NaN after the first slice.  At progress 0, at progress
    1/2 and at progress 1 alike every slice ends at NaN and every slice but
    the first starts at NaN: no slice has zero width at progress 0, and the
    progress scales nothing. *)
Theorem zero_total_animation_sweeps_NaN :
  let data := Home.pieData (N := float) Sample.light (Some Sample.blank) in
  let chart progress :=
    paths (AnimatedPieChart data 200%float 200%float 90%float progress) in
  let starts progress :=
    map (fun p => PrimFloat.is_nan (startAngle (d p))) (chart progress) in
  let ends progress :=
    map (fun p => PrimFloat.is_nan (endAngle (d p))) (chart progress) in
  let widths progress :=
    map (fun p => PrimFloat.eqb (span p) 0%float) (chart progress) in
  map (fun s => PrimFloat.is_nan (sliceAngle data s)) data = [true; true; true; true] /\
  (starts 0%float = [false; true; true; true] /\
   starts 0.5%float = [false; true; true; true] /\
   starts 1%float = [false; true; true; true]) /\
  (ends 0%float = [true; true; true; true] /\
   ends 0.5%float = [true; true; true; true] /\
   ends 1%float = [true; true; true; true]) /\
  (widths 0%float = [false; false; false; false] /\
   widths 0.5%float = [false; false; false; false] /\
   widths 1%float = [false; false; false; false]).
Proof. cbn zeta. repeat split; vm_compute; reflexivity. Qed.

(** The chart of the sample result (3, 1, 10 and 40 of 54) in binary64:
    four slices of 20, 20/3, 200/3 and 800/3 degrees, up to rounding, that
    end within a millionth of a degree of the full turn. *)
Example sample_chart_binary64 :
  let data := Home.pieData (N := float) Sample.light (Some Sample.scan) in
  let chart := AnimatedPieChart data 200%float 200%float 90%float 1%float in
  length (paths chart) = 4%nat /\
  match last (map (fun p => endAngle (d p)) (paths chart)) with
  | Some turn => PrimFloat.ltb (PrimFloat.abs (turn - 360)) 0x1p-20%float = true
  | None => False
  end /\
  map (fun p => largeArcFlag (d p)) (paths chart) = ["0"; "0"; "0"; "1"].
Proof. cbn zeta. repeat split; vm_compute; reflexivity. Qed.

(** No slice, no division: the chart of no result is empty. *)
Lemma empty_chart {N} `{Number N} (width height outerRadius progress : N) :
  paths (AnimatedPieChart [] width height outerRadius progress) = [].
Proof. reflexivity. Qed.

(* ===================================================================== *)
(** * The chart in exact arithmetic *)
(* ===================================================================== *)

Section ExactChart.
Local Open Scope Qc_scope.

Lemma xdiv_finite (q T : Qc) : T <> 0 -> xdiv (Fin q) (Fin T) = Fin (q / T).
Proof.
  intros HT. unfold xdiv, Qc_sign.
  destruct (T ?= 0) eqn:Hcmp; try reflexivity.
  apply Qceq_alt in Hcmp. contradiction.
Qed.

Lemma fold_left_Qcplus (l : list Qc) (a : Qc) :
  fold_left Qcplus l a = a + qsum l.
Proof.
  revert a. induction l as [|q l IH]; intros a; cbn [fold_left qsum].
  - ring.
  - rewrite IH. ring.
Qed.

Lemma xsum_finite (qs : list Qc) : xsum (map Fin qs) = Fin (qsum qs).
Proof.
  induction qs as [|q qs IH]; [reflexivity|]. cbn [map xsum qsum].
  rewrite IH. reflexivity.
Qed.

Lemma qsum_sweep (T : Qc) (qs : list Qc) :
  qsum (map (sweep T) qs) = sweep T (qsum qs).
Proof.
  induction qs as [|q qs IH]; cbn [map qsum].
  - unfold sweep, Qcdiv. ring.
  - rewrite IH. unfold sweep, Qcdiv. ring.
Qed.

Lemma sweep_total (T : Qc) : T <> 0 -> sweep T T = Q2Qc (inject_Z 360).
Proof. intros HT. unfold sweep. field. exact HT. Qed.

(** The total of finite values. *)
Lemma total_finite (data : list (SliceData xnum)) (qs : list Qc) :
  map value data = map Fin qs -> total data = Fin (qsum qs).
Proof.
  unfold total. cbn [num_of_Z num_add xnum_Number]. unfold xnum_of_Z.
  change (Q2Qc (inject_Z 0)) with 0.
  intros Hvalues. rewrite <- (Qcplus_0_l (qsum qs)), <- fold_left_Qcplus.
  generalize 0 as a. revert qs Hvalues.
  induction data as [|slice data IH]; intros [|q qs] Hvalues a; try discriminate.
  - reflexivity.
  - cbn [map] in Hvalues. injection Hvalues as Hq Hrest.
    cbn [fold_left]. rewrite Hq. cbn [xadd]. apply IH, Hrest.
Qed.

(** The angles of the slices, for finite values, a total that is not zero
    and a finite progress. *)
Lemma slices_angles (width height outerRadius : xnum) (T p : Qc)
    (data : list (SliceData xnum)) (qs : list Qc) (c : Qc) :
  T <> 0 ->
  map value data = map Fin qs ->
  map (fun path => (startAngle (d path), endAngle (d path)))
      (slices width height outerRadius (Fin p) (Fin T) (Fin c) data)
    = map (fun ab => (Fin (fst ab), Fin (snd ab))) (angles T p c qs).
Proof.
  intros HT. revert qs c.
  induction data as [|slice data IH]; intros [|q qs] c Hvalues; try discriminate.
  - reflexivity.
  - cbn [map] in Hvalues. injection Hvalues as Hq Hrest.
    cbn [slices map angles fst snd d startAngle endAngle describeArc].
    cbn [num_of_Z num_add num_mul num_div xnum_Number].
    rewrite Hq, (xdiv_finite q T HT). unfold xnum_of_Z. cbn [xmul xadd].
    fold (sweep T q). f_equal. apply IH, Hrest.
Qed.

Lemma slices_fill (width height outerRadius progress total c : xnum)
    (data : list (SliceData xnum)) :
  map fill (slices width height outerRadius progress total c data) = map color data.
Proof.
  revert c. induction data as [|slice data IH]; intros c; [reflexivity|].
  cbn [slices map fill]. f_equal. apply IH.
Qed.

Lemma angles_length (T p c : Qc) (qs : list Qc) :
  length (angles T p c qs) = length qs.
Proof. revert c. induction qs as [|q qs IH]; intros c; cbn [angles length]; auto. Qed.

Lemma angles_lookup (T p : Qc) (qs : list Qc) (i : nat) (c : Qc) :
  angles T p c qs !! i =
    option_map
      (fun q => (c + qsum (map (sweep T) (take i qs)),
                 c + qsum (map (sweep T) (take i qs)) + sweep T q * p))
      (qs !! i).
Proof.
  revert i c. induction qs as [|q qs IH]; intros [|i] c; try reflexivity.
  - cbn [angles take map qsum]. change ((q :: qs) !! 0%nat) with (Some q).
    cbn [option_map]. change ((?x :: ?l) !! 0%nat) with (Some x).
    f_equal. f_equal; ring.
  - cbn [angles take map qsum]. change ((q :: qs) !! S i) with (qs !! i).
    change ((?x :: ?l) !! S i) with (l !! i).
    rewrite IH. destruct (qs !! i); cbn [option_map]; [|reflexivity].
    f_equal. f_equal; ring.
Qed.
End ExactChart.

Section ExactChartSlices.
Local Open Scope Qc_scope.

Lemma finite_values (data : list (SliceData xnum)) :
  forallb (fun s => nonneg_finite (value s)) data = true ->
  exists qs, map value data = map Fin qs /\ Forall (fun q => 0 <= q) qs.
Proof.
  induction data as [|slice data IH]; cbn [forallb map].
  - intros _. exists []. split; [reflexivity|constructor].
  - intros Hall. apply andb_true_iff in Hall as [Hslice Hrest].
    destruct (IH Hrest) as (qs & Hqs & Hpos).
    destruct (value slice) as [q| | |] eqn:Hq; try discriminate.
    exists (q :: qs). cbn [map]. rewrite Hqs. split; [reflexivity|].
    constructor; [|exact Hpos].
    apply Qcle_alt. apply Qcge_alt. unfold nonneg_finite, Qc_sign in Hslice.
    destruct (q ?= 0) eqn:Hcmp; congruence.
Qed.

Lemma positive_total (a : xnum) :
  positive_finite a = true -> exists T, a = Fin T /\ 0 < T.
Proof.
  destruct a as [T| | |]; try discriminate. cbn. unfold Qc_sign.
  destruct (T ?= 0) eqn:Hcmp; try discriminate. intros _.
  exists T. split; [reflexivity|]. apply Qcgt_alt in Hcmp. exact Hcmp.
Qed.

Lemma positive_not_zero (T : Qc) : 0 < T -> T <> 0.
Proof. intros Hpos Heq. apply Qclt_not_eq in Hpos. congruence. Qed.

Lemma angles_spans (T p c : Qc) (qs : list Qc) :
  map (fun ab => snd ab - fst ab) (angles T p c qs)
    = map (fun q => sweep T q * p) qs.
Proof.
  revert c. induction qs as [|q qs IH]; intros c; [reflexivity|].
  cbn [angles map fst snd]. rewrite IH. f_equal. ring.
Qed.

Section OneChart.
Context (width height outerRadius : xnum) (data : list (SliceData xnum)).
Context (qs : list Qc) (T : Qc).
Hypothesis Hvalues : map value data = map Fin qs.
Hypothesis Htotal : total data = Fin T.
Hypothesis HT : T <> 0.

Local Abbreviation chart_at := (chart_at width height outerRadius data).

Lemma chart_angles (p : Qc) :
  map (fun path => (startAngle (d path), endAngle (d path))) (chart_at p)
    = map (fun ab => (Fin (fst ab), Fin (snd ab))) (angles T p 0 qs).
Proof.
  unfold chart_at, AnimatedPieChart. cbn [paths]. rewrite Htotal.
  apply (slices_angles width height outerRadius T p data qs 0 HT Hvalues).
Qed.

Lemma chart_length (p : Qc) : length (chart_at p) = length data.
Proof.
  rewrite <- (length_map (fun path => (startAngle (d path), endAngle (d path)))).
  rewrite chart_angles, length_map, angles_length.
  rewrite <- (length_map Fin qs), <- Hvalues. apply length_map.
Qed.

Lemma chart_fill (p : Qc) : map fill (chart_at p) = map color data.
Proof. apply slices_fill. Qed.

Lemma chart_spans (p : Qc) :
  map span (chart_at p) = map (fun q => Fin (sweep T q * p)) qs.
Proof.
  transitivity
    (map (fun pr : xnum * xnum => xsub (snd pr) (fst pr))
         (map (fun path => (startAngle (d path), endAngle (d path))) (chart_at p))).
  { rewrite map_map. reflexivity. }
  rewrite chart_angles, map_map.
  rewrite <- (map_map (fun q => sweep T q * p) Fin qs), <- (angles_spans T p 0 qs).
  rewrite map_map. reflexivity.
Qed.

(** Slice [i]: its value, its path, and the angles of the path. *)
Lemma chart_lookup (p : Qc) (i : nat) (path : Path xnum) :
  chart_at p !! i = Some path ->
  exists slice q,
    data !! i = Some slice /\ value slice = Fin q /\ qs !! i = Some q /\
    startAngle (d path) = Fin (qsum (map (sweep T) (take i qs))) /\
    endAngle (d path) = Fin (qsum (map (sweep T) (take i qs)) + sweep T q * p) /\
    span path = Fin (sweep T q * p) /\
    fill path = color slice.
Proof.
  intros Hpath.
  pose proof (f_equal (fun l => l !! i) (chart_angles p)) as Hangles.
  cbn beta in Hangles. rewrite !map_lookup, Hpath, angles_lookup in Hangles.
  pose proof (f_equal (fun l => l !! i) (chart_fill p)) as Hfill.
  cbn beta in Hfill. rewrite !map_lookup, Hpath in Hfill.
  pose proof (f_equal (fun l => l !! i) Hvalues) as Hvalue.
  cbn beta in Hvalue. rewrite !map_lookup in Hvalue.
  destruct (qs !! i) as [q|]; [|discriminate].
  destruct (data !! i) as [slice|]; [|discriminate].
  cbn [option_map fst snd] in Hangles, Hfill, Hvalue.
  injection Hangles as Hstart Hend. injection Hfill as Hfill.
  injection Hvalue as Hvalue.
  assert (Hzero : forall x : Qc, 0 + x = x) by (intros x; ring).
  rewrite Hzero in Hstart, Hend.
  exists slice, q. repeat split; auto.
  unfold span. cbn [num_sub xnum_Number]. rewrite Hstart, Hend. cbn [xsub xneg xadd].
  f_equal. ring.
Qed.

Lemma chart_lookup_data (p : Qc) (i : nat) (slice : SliceData xnum) :
  data !! i = Some slice -> exists path, chart_at p !! i = Some path.
Proof.
  intros Hslice. apply lookup_lt_is_Some. rewrite chart_length.
  apply lookup_lt_is_Some. eauto.
Qed.

Lemma chart_start_is_sum (i : nat) :
  xsum (map span (take i (chart_at 1)))
    = Fin (qsum (map (sweep T) (take i qs))).
Proof.
  rewrite <- firstn_map, chart_spans, firstn_map.
  rewrite <- (map_map (fun q => sweep T q * 1) Fin), xsum_finite.
  f_equal. f_equal. apply map_ext. intros q. ring.
Qed.
End OneChart.
End ExactChartSlices.

Section ExactChartClaims.
Local Open Scope Qc_scope.

Lemma qsum_app (l1 l2 : list Qc) : qsum (l1 ++ l2) = qsum l1 + qsum l2.
Proof.
  induction l1 as [|q l1 IH]; cbn [app qsum]; [ring|]. rewrite IH. ring.
Qed.

Lemma Qcmult_nonneg (a b : Qc) : 0 <= a -> 0 <= b -> 0 <= a * b.
Proof.
  intros Ha Hb. replace 0 with (0 * b) by ring.
  apply Qcmult_le_compat_r; assumption.
Qed.

Lemma Qcinv_nonneg (T : Qc) : 0 < T -> 0 <= / T.
Proof.
  unfold Qcle, Qclt. intros HT. cbn [this Qcinv Q2Qc].
  rewrite (Qred_correct (/ this T)). apply Qinv_le_0_compat, Qlt_le_weak, HT.
Qed.

Lemma sweep_nonneg (T q : Qc) : 0 < T -> 0 <= q -> 0 <= sweep T q.
Proof.
  intros HT Hq. unfold sweep, Qcdiv.
  apply Qcmult_nonneg; [apply Qcmult_nonneg; [exact Hq|apply Qcinv_nonneg, HT]|].
  apply Qcle_alt. discriminate.
Qed.

(** The animation of a chart of finite values with a positive total. *)
Lemma finite_animation (data : list (SliceData xnum))
    (width height outerRadius : xnum) (progress : Qc) :
  forallb (fun s => nonneg_finite (value s)) data = true ->
  positive_finite (total data) = true ->
  let chart p := paths (AnimatedPieChart data width height outerRadius (Fin p)) in
  length (chart progress) = length data /\
  (forall i shown full,
      chart progress !! i = Some shown -> chart 1 !! i = Some full ->
      startAngle (d shown) = startAngle (d full) /\
      startAngle (d full) = xsum (map span (take i (chart 1))) /\
      span shown = xmul (span full) (Fin progress) /\
      fill shown = fill full) /\
  Forall (fun path => span path = Fin 0) (chart 0) /\
  (forall i slice,
      data !! i = Some slice ->
      exists full,
        chart 1 !! i = Some full /\
        span full = sliceAngle data slice /\
        fill full = color slice).
Proof.
  intros Hfinite Hpositive chart.
  destruct (finite_values data Hfinite) as (qs & Hvalues & _).
  destruct (positive_total _ Hpositive) as (T & Htotal & Hpos).
  pose proof (positive_not_zero T Hpos) as HT.
  change chart with (chart_at width height outerRadius data).
  split; [|split; [|split]].
  - apply (chart_length width height outerRadius data qs T Hvalues Htotal HT).
  - intros i shown full Hshown Hfull.
    destruct (chart_lookup width height outerRadius data qs T Hvalues Htotal HT
                progress i shown Hshown)
      as (slice & q & Hslice & Hq & Hqs & Hstart & _ & Hspan & Hfill).
    destruct (chart_lookup width height outerRadius data qs T Hvalues Htotal HT
                1 i full Hfull)
      as (slice' & q' & Hslice' & Hq' & Hqs' & Hstart' & _ & Hspan' & Hfill').
    assert (slice' = slice) by congruence. assert (q' = q) by congruence. subst.
    repeat split.
    + congruence.
    + rewrite Hstart'. symmetry.
      apply (chart_start_is_sum width height outerRadius data qs T Hvalues Htotal HT).
    + rewrite Hspan, Hspan'. cbn [xmul]. f_equal. ring.
    + congruence.
  - apply Forall_lookup. intros i path Hpath.
    destruct (chart_lookup width height outerRadius data qs T Hvalues Htotal HT
                0 i path Hpath) as (_ & q & _ & _ & _ & _ & _ & Hspan & _).
    rewrite Hspan. f_equal. ring.
  - intros i slice Hslice.
    destruct (chart_lookup_data width height outerRadius data qs T Hvalues Htotal HT
                1 i slice Hslice) as (full & Hfull).
    exists full. split; [exact Hfull|].
    destruct (chart_lookup width height outerRadius data qs T Hvalues Htotal HT
                1 i full Hfull)
      as (slice' & q & Hslice' & Hq & _ & _ & _ & Hspan & Hfill).
    assert (slice' = slice) by congruence. subst slice'.
    split; [|exact Hfill].
    rewrite Hspan. unfold sliceAngle. cbn [num_div num_mul num_of_Z xnum_Number].
    rewrite Htotal, Hq, (xdiv_finite q T HT). unfold xnum_of_Z. cbn [xmul].
    f_equal. unfold sweep. ring.
Qed.

(** Proportional slices.  For finite values that are not negative and a
    positive total [T], the finished chart has one slice per value, in
    order and in its colour; slice [i] sweeps [360 * v_i / T] degrees, not
    less than zero, and starts at the sum of the angles swept by the slices
    before it; the first slice starts at angle 0, each slice starts where
    the one before it ends, and the angles swept sum to 360. *)
Theorem chart_spans_proportional (data : list (SliceData xnum))
    (width height outerRadius : xnum) :
  forallb (fun s => nonneg_finite (value s)) data = true ->
  positive_finite (total data) = true ->
  let chart := paths (AnimatedPieChart data width height outerRadius (Fin 1)) in
  exists T,
    total data = Fin T /\
    length chart = length data /\
    (forall i slice q,
        data !! i = Some slice -> value slice = Fin q ->
        exists path,
          chart !! i = Some path /\
          span path = Fin (Q2Qc (inject_Z 360) * q / T) /\
          xleb (Fin 0) (span path) = true /\
          startAngle (d path) = xsum (map span (take i chart)) /\
          fill path = color slice) /\
    (forall path, chart !! 0%nat = Some path -> startAngle (d path) = Fin 0) /\
    (forall i a b,
        chart !! i = Some a -> chart !! S i = Some b ->
        startAngle (d b) = endAngle (d a)) /\
    xsum (map span chart) = Fin (Q2Qc (inject_Z 360)).
Proof.
  intros Hfinite Hpositive chart.
  destruct (finite_values data Hfinite) as (qs & Hvalues & Hnonneg).
  destruct (positive_total _ Hpositive) as (T & Htotal & Hpos).
  pose proof (positive_not_zero T Hpos) as HT.
  change chart with (chart_at width height outerRadius data 1).
  exists T. split; [exact Htotal|]. split; [|split; [|split; [|split]]].
  - apply (chart_length width height outerRadius data qs T Hvalues Htotal HT).
  - intros i slice q Hslice Hq.
    destruct (chart_lookup_data width height outerRadius data qs T Hvalues Htotal HT
                1 i slice Hslice) as (path & Hpath).
    exists path. split; [exact Hpath|].
    destruct (chart_lookup width height outerRadius data qs T Hvalues Htotal HT
                1 i path Hpath)
      as (slice' & q' & Hslice' & Hq' & Hqs & Hstart & _ & Hspan & Hfill).
    assert (slice' = slice) by congruence. subst slice'.
    assert (q' = q) by congruence. subst q'.
    assert (Hq0 : 0 <= q).
    { apply (proj1 (Forall_lookup _ _) Hnonneg i q Hqs). }
    repeat split.
    + rewrite Hspan. f_equal. unfold sweep. field. exact HT.
    + rewrite Hspan. cbv beta iota delta [xleb].
      pose proof (sweep_nonneg T q Hpos Hq0) as Hsweep.
      assert (Hle : 0 <= sweep T q * 1) by (replace (sweep T q * 1) with (sweep T q) by ring; exact Hsweep).
      pose proof (proj1 (Qcle_alt _ _) Hle) as Hcmp.
      destruct (0 ?= sweep T q * 1); try reflexivity. congruence.
    + rewrite Hstart. symmetry.
      apply (chart_start_is_sum width height outerRadius data qs T Hvalues Htotal HT).
    + exact Hfill.
  - intros path Hpath.
    destruct (chart_lookup width height outerRadius data qs T Hvalues Htotal HT
                1 0%nat path Hpath) as (_ & _ & _ & _ & _ & Hstart & _).
    exact Hstart.
  - intros i a b Ha Hb.
    destruct (chart_lookup width height outerRadius data qs T Hvalues Htotal HT
                1 i a Ha) as (_ & q & _ & _ & Hqs & _ & Hend & _).
    destruct (chart_lookup width height outerRadius data qs T Hvalues Htotal HT
                1 (S i) b Hb) as (_ & _ & _ & _ & _ & Hstart & _).
    rewrite Hstart, Hend, (take_S_r qs i q Hqs), map_app, qsum_app.
    cbn [map qsum]. f_equal. ring.
  - rewrite (chart_spans width height outerRadius data qs T Hvalues Htotal HT 1).
    rewrite <- (map_map (fun q => sweep T q * 1) Fin), xsum_finite. f_equal.
    assert (Hsum : qsum qs = T).
    { pose proof (total_finite data qs Hvalues) as Hfin. congruence. }
    transitivity (qsum (map (sweep T) qs)).
    + f_equal. apply map_ext. intros q. ring.
    + rewrite qsum_sweep, Hsum. apply sweep_total, HT.
Qed.
End ExactChartClaims.

Section Animation.
Context {N : Type} `{Number N}.
Local Open Scope num_scope.

(** Slice [i] of the map, whatever the numbers: it starts at the running
    sum of the full angles of the slices before it and ends at its start
    plus its own full angle times the progress. *)
Lemma slices_lookup (width height outerRadius progress total : N)
    (data : list (SliceData N)) (cumulativeAngle : N) (i : nat) (path : Path N) :
  slices width height outerRadius progress total cumulativeAngle data !! i = Some path ->
  exists slice,
    data !! i = Some slice /\
    fill path = color slice /\
    startAngle (d path)
      = fold_left num_add
          (map (fun s => (value s / total) * num_of_Z 360) (take i data))
          cumulativeAngle /\
    endAngle (d path)
      = startAngle (d path) + ((value slice / total) * num_of_Z 360) * progress.
Proof.
  revert cumulativeAngle i.
  induction data as [|slice data IH]; intros c [|i] Hpath; try discriminate.
  - injection Hpath as <-. exists slice. repeat split.
  - cbn [slices] in Hpath. change ((?x :: ?l) !! S i) with (l !! i) in Hpath.
    destruct (IH _ i Hpath) as (slice' & Hslice & Hfill & Hstart & Hend).
    exists slice'. repeat split; assumption.
Qed.
End Animation.

Lemma xmul_1_r (a : xnum) : xmul a (Fin 1%Qc) = a.
Proof.
  destruct a as [q| | |]; try reflexivity.
  cbn [xmul]. f_equal. ring.
Qed.

(** The animation of a chart with a positive total.  Whatever the numbers
    and the progress, slice [i] is drawn in its own colour, starts at the
    running sum of the full angles [(value / total) * 360] of the slices
    before it, which does not depend on the progress, and ends at its start
    plus its full angle times the progress; at progress 1 it ends at its
    start plus its full angle.  For finite values that are not negative and
    a positive total, in exact arithmetic, the angle a slice sweeps is the
    angle it sweeps in the finished chart times the progress, zero at
    progress 0 and [(value / total) * 360] at progress 1. *)
Theorem animation_scales_end_angles :
  (forall (N : Type) (H : Number N) (data : list (SliceData N))
          (width height outerRadius progress : N) (i : nat) (shown : Path N),
      paths (AnimatedPieChart data width height outerRadius progress) !! i
        = Some shown ->
      exists slice,
        data !! i = Some slice /\
        fill shown = color slice /\
        startAngle (d shown)
          = fold_left num_add (map (sliceAngle data) (take i data)) (num_of_Z 0) /\
        endAngle (d shown)
          = num_add (startAngle (d shown))
                    (num_mul (sliceAngle data slice) progress)) /\
  (forall (data : list (SliceData xnum)) (width height outerRadius : xnum)
          (i : nat) (full : Path xnum),
      paths (AnimatedPieChart data width height outerRadius (Fin 1%Qc)) !! i
        = Some full ->
      exists slice,
        data !! i = Some slice /\
        endAngle (d full) = xadd (startAngle (d full)) (sliceAngle data slice)) /\
  (forall (data : list (SliceData xnum)) (width height outerRadius : xnum)
          (progress : Qc),
      forallb (fun s => nonneg_finite (value s)) data = true ->
      positive_finite (total data) = true ->
      let chart p := paths (AnimatedPieChart data width height outerRadius (Fin p)) in
      length (chart progress) = length data /\
      (forall i shown full,
          chart progress !! i = Some shown -> chart 1%Qc !! i = Some full ->
          startAngle (d shown) = startAngle (d full) /\
          startAngle (d full) = xsum (map span (take i (chart 1%Qc))) /\
          span shown = xmul (span full) (Fin progress) /\
          fill shown = fill full) /\
      Forall (fun path => span path = Fin 0%Qc) (chart 0%Qc) /\
      (forall i slice,
          data !! i = Some slice ->
          exists full,
            chart 1%Qc !! i = Some full /\
            span full = sliceAngle data slice /\
            fill full = color slice)).
Proof.
  split; [|split].
  - intros N H data width height outerRadius progress i shown Hshown.
    apply (slices_lookup width height outerRadius progress (total data) data
             (num_of_Z 0) i shown Hshown).
  - intros data width height outerRadius i full Hfull.
    destruct (slices_lookup width height outerRadius (Fin 1%Qc) (total data) data
                (num_of_Z 0) i full Hfull) as (slice & Hslice & _ & _ & Hend).
    exists slice. split; [exact Hslice|].
    rewrite Hend. cbn [num_add num_mul xnum_Number]. rewrite xmul_1_r. reflexivity.
  - exact finite_animation.
Qed.

(** Half-way through the animation of the sample chart there are four
    slices, none of which swept anything at the start. *)
Lemma animation_scales_end_angles_witness :
  let data := Home.pieData (N := xnum) Sample.light (Some Sample.scan) in
  let chart p :=
    paths (AnimatedPieChart data (xnum_of_Z 200) (xnum_of_Z 200) (xnum_of_Z 90)
             (Fin p)) in
  length (chart (Q2Qc (1 # 2))) = 4%nat /\
  Forall (fun path => span path = Fin 0%Qc) (chart 0%Qc).
Proof.
  cbn zeta.
  destruct animation_scales_end_angles as (_ & _ & Hfinite).
  destruct (Hfinite
              (Home.pieData (H := xnum_Number) Sample.light (Some Sample.scan))
              (xnum_of_Z 200) (xnum_of_Z 200) (xnum_of_Z 90) (Q2Qc (1 # 2))
              eq_refl eq_refl) as (Hlength & _ & Hzero & _).
  split; [exact Hlength|exact Hzero].
Defined.

(** The angles swept in the finished sample chart sum to 360. *)
Lemma chart_spans_proportional_witness :
  let data := Home.pieData (N := xnum) Sample.light (Some Sample.scan) in
  let chart :=
    paths (AnimatedPieChart data (xnum_of_Z 200) (xnum_of_Z 200) (xnum_of_Z 90)
             (Fin 1%Qc)) in
  length chart = 4%nat /\ xsum (map span chart) = Fin (Q2Qc (inject_Z 360)).
Proof.
  cbn zeta.
  destruct (chart_spans_proportional
              (Home.pieData (H := xnum_Number) Sample.light (Some Sample.scan))
              (xnum_of_Z 200) (xnum_of_Z 200) (xnum_of_Z 90)
              eq_refl eq_refl) as (T & _ & Hlength & _ & _ & _ & Hsum).
  split; [exact Hlength|exact Hsum].
Defined.

(** In exact arithmetic too, values that are all zero make every slice
    sweep NaN, whatever the progress. *)
Lemma zero_total_spans_NaN (data : list (SliceData xnum))
    (width height outerRadius progress : xnum) :
  Forall (fun s => value s = Fin 0%Qc) data ->
  Forall (fun path => span path = NaN)
         (paths (AnimatedPieChart data width height outerRadius progress)).
Proof.
  intros Hzero. unfold AnimatedPieChart. cbn [paths].
  assert (Htotal : total data = Fin 0%Qc).
  { rewrite (total_finite data (map (fun _ => 0%Qc) data)).
    - f_equal. clear Hzero. induction data as [|s data IH]; cbn [map qsum]; [reflexivity|].
      rewrite IH. ring.
    - induction Hzero as [|s data Hs _ IH]; cbn [map]; [reflexivity|].
      rewrite Hs, IH. reflexivity. }
  rewrite Htotal. clear Htotal. generalize (num_of_Z (N := xnum) 0) as c.
  induction Hzero as [|s data Hs _ IH]; intros c; cbn [slices]; constructor.
  - unfold span. cbn [d startAngle endAngle describeArc].
    cbn [num_add num_sub num_mul num_div xnum_Number]. rewrite Hs.
    destruct c, progress; reflexivity.
  - apply IH.
Qed.

(* ===================================================================== *)
(** * Where the chart starts *)
(* ===================================================================== *)

Section ChartStart.
Local Open Scope R_scope.

Lemma polarToCartesian_zero (cx cy r : R) :
  Geometry.polarToCartesian cx cy r 0 = Geometry.twelve_oclock (cx, cy) r.
Proof.
  unfold Geometry.polarToCartesian, Geometry.twelve_oclock. cbn [fst snd].
  replace ((0 - 90) * PI / 180) with (- (PI / 2)) by field.
  rewrite cos_neg, sin_neg, cos_PI2, sin_PI2. f_equal; ring.
Qed.

Lemma rotate_quarter_turn_back (cx cy r : R) :
  Geometry.rotate (-90) (cx, cy) (Geometry.twelve_oclock (cx, cy) r)
    = Geometry.nine_oclock (cx, cy) r.
Proof.
  unfold Geometry.rotate, Geometry.twelve_oclock, Geometry.nine_oclock. cbn [fst snd].
  replace (-90 * PI / 180) with (- (PI / 2)) by field.
  rewrite cos_neg, sin_neg, cos_PI2, sin_PI2. f_equal; ring.
Qed.

Lemma Q2R_zero : Q2R (Q2Qc (inject_Z 0)) = 0.
Proof.
  change (this (Q2Qc (inject_Z 0))) with (0 # 1)%Q.
  unfold Q2R. cbn [Qnum Qden]. lra.
Qed.

(** The first path of a chart that has a slice. *)
Lemma first_path (slice : SliceData xnum) (rest : list (SliceData xnum))
    (width height outerRadius : Qc) (progress : xnum) :
  exists animatedEndAngle others,
    paths (AnimatedPieChart (slice :: rest) (Fin width) (Fin height)
             (Fin outerRadius) progress)
      = {| d := describeArc (Fin (width / Q2Qc 2)%Qc) (Fin (height / Q2Qc 2)%Qc)
                  (Fin outerRadius) (Fin 0%Qc) animatedEndAngle;
           fill := color slice |} :: others.
Proof.
  assert (Htwo : Q2Qc (inject_Z 2) <> 0%Qc) by discriminate.
  eexists _, _. unfold AnimatedPieChart. cbn [paths slices].
  cbn [num_of_Z num_add num_mul num_div xnum_Number].
  unfold xnum_of_Z at 1 2 3.
  rewrite (xdiv_finite width _ Htwo), (xdiv_finite height _ Htwo). reflexivity.
Qed.

Lemma start_point_at_zero (x y radius : Qc) (animatedEndAngle : xnum) (fill : string) :
  Geometry.start_point
    {| d := describeArc (Fin x) (Fin y) (Fin radius) (Fin 0%Qc) animatedEndAngle;
       fill := fill |}
    = Some (Geometry.twelve_oclock (Q2R x, Q2R y) (Q2R radius)).
Proof.
  unfold Geometry.start_point. cbn [d describeArc arc_x arc_y arc_radius startAngle].
  change (this 0%Qc) with (this (Q2Qc (inject_Z 0))).
  rewrite Q2R_zero, polarToCartesian_zero. reflexivity.
Qed.

(** On the screen the first slice starts to the left of the centre. *)
Lemma chart_start_on_screen (slice : SliceData xnum) (rest : list (SliceData xnum))
    (width height outerRadius : Qc) (progress : xnum) :
  Geometry.chart_start
    (AnimatedPieChart (slice :: rest) (Fin width) (Fin height) (Fin outerRadius)
       progress)
    = Some (Geometry.nine_oclock
              (Q2R (width / Q2Qc 2)%Qc, Q2R (height / Q2Qc 2)%Qc)
              (Q2R outerRadius)).
Proof.
  assert (Htwo : Q2Qc (inject_Z 2) <> 0%Qc) by discriminate.
  destruct (first_path slice rest width height outerRadius progress)
    as (animatedEndAngle & others & Hpaths).
  unfold Geometry.chart_start. rewrite Hpaths, start_point_at_zero.
  unfold Geometry.on_screen, AnimatedPieChart. cbn [g_origin g_rotation].
  cbn [num_of_Z num_div xnum_Number]. unfold xnum_of_Z.
  rewrite (xdiv_finite width _ Htwo), (xdiv_finite height _ Htwo).
  change (IZR (-90)) with (-90).
  rewrite rotate_quarter_turn_back. reflexivity.
Qed.

(** C5, where the code departs from it.  Whatever the values, the size and
    the progress, the first slice of a chart starts at angle 0, which
    [polarToCartesian] puts straight above the centre; the group's
    rotation by -90 degrees then turns that point a quarter-turn back, so
    that on the screen the chart starts to the left of the centre, at 9
    o'clock, which is 12 o'clock only for a chart of radius 0. *)
Theorem chart_starts_at_nine_oclock (slice : SliceData xnum)
    (rest : list (SliceData xnum)) (width height outerRadius : Qc)
    (progress : xnum) :
  let svg :=
    AnimatedPieChart (slice :: rest) (Fin width) (Fin height) (Fin outerRadius)
      progress in
  let centre := (Q2R (width / Q2Qc 2)%Qc, Q2R (height / Q2Qc 2)%Qc) in
  (exists first others,
      paths svg = first :: others /\
      startAngle (d first) = Fin 0%Qc /\
      Geometry.start_point first
        = Some (Geometry.twelve_oclock centre (Q2R outerRadius))) /\
  g_rotation svg = (-90)%Z /\
  Geometry.chart_start svg
    = Some (Geometry.nine_oclock centre (Q2R outerRadius)) /\
  (Geometry.nine_oclock centre (Q2R outerRadius)
     = Geometry.twelve_oclock centre (Q2R outerRadius) ->
   Q2R outerRadius = 0).
Proof.
  intros svg centre. split; [|split; [|split]].
  - destruct (first_path slice rest width height outerRadius progress)
      as (animatedEndAngle & others & Hpaths).
    eexists _, others. split; [exact Hpaths|]. split; [reflexivity|].
    apply start_point_at_zero.
  - reflexivity.
  - apply chart_start_on_screen.
  - unfold Geometry.nine_oclock, Geometry.twelve_oclock. cbn [fst snd].
    intros Heq. injection Heq as Hx Hy. lra.
Qed.
End ChartStart.

(** The chart of the sample result, 200 by 200 with radius 90: its first
    slice starts at the point (10, 100), left of the centre (100, 100), and
    not at (100, 10) above it. *)
Example sample_chart_start :
  Geometry.chart_start
    (AnimatedPieChart (Home.pieData (H := xnum_Number) Sample.light (Some Sample.scan))
       (xnum_of_Z 200) (xnum_of_Z 200) (xnum_of_Z 90) (xnum_of_Z 1))
    = Some (10, 100)%R.
Proof.
  etransitivity.
  - exact (chart_start_on_screen
             {| value := xnum_of_Z 3; color := danger Sample.light |}
             [ {| value := xnum_of_Z 1; color := "#FFC107" |};
               {| value := xnum_of_Z 10; color := success Sample.light |};
               {| value := xnum_of_Z 40; color := "#999" |} ]
             (Q2Qc (inject_Z 200)) (Q2Qc (inject_Z 200)) (Q2Qc (inject_Z 90))
             (xnum_of_Z 1)).
  - unfold Geometry.nine_oclock. cbn [fst snd].
    change (this (Q2Qc (inject_Z 200) / Q2Qc 2)%Qc) with (100 # 1)%Q.
    change (this (Q2Qc (inject_Z 90))) with (90 # 1)%Q.
    unfold Q2R. cbn [Qnum Qden]. f_equal. f_equal; lra.
Qed.

(* ===================================================================== *)
(** * More on the validation of the fingerprint *)
(* ===================================================================== *)

(** The class of the pattern is the set of the 22 characters 0-9, a-f and
    A-F. *)
Lemma hex_class_chars (c : ascii) :
  hex_class c = true <-> In c (list_ascii_of_string "0123456789abcdefABCDEF").
Proof.
  split.
  - destruct c as [[] [] [] [] [] [] [] []]; vm_compute; intros Hc;
      try discriminate; tauto.
  - intros Hin. cbn in Hin.
    repeat (destruct Hin as [<-|Hin]; [reflexivity|]). contradiction.
Qed.

(** The pattern accepts a string exactly when it has 64 characters, each
    one of 0-9, a-f and A-F: nothing is trimmed and nothing else is let
    through. *)
Theorem matches_sha256_exactly (s : string) :
  matches_sha256 s = true <->
  String.length s = 64%nat /\
  forall c, In c (list_ascii_of_string s) ->
            In c (list_ascii_of_string "0123456789abcdefABCDEF").
Proof.
  rewrite matches_sha256_spec, List.Forall_forall.
  split; intros [Hlen Hall]; (split; [exact Hlen|]); intros c Hc.
  - apply hex_class_chars, Hall, Hc.
  - apply hex_class_chars, Hall, Hc.
Qed.

Lemma string_length_app (a b : string) :
  String.length (a ++ b) = (String.length a + String.length b)%nat.
Proof.
  induction a as [|c a IH]; [reflexivity|].
  change (S (String.length (a ++ b)) = S (String.length a + String.length b)).
  now rewrite IH.
Qed.

(** An accepted fingerprint with anything before or after it (a space, a
    line break, a prefix) is refused. *)
Theorem padded_fingerprint_refused (s pre post : string) :
  matches_sha256 s = true ->
  (String.length pre + String.length post <> 0)%nat ->
  matches_sha256 (pre ++ s ++ post) = false.
Proof.
  intros Hs Hpad. apply matches_sha256_spec in Hs as [Hlen _].
  destruct (matches_sha256 (pre ++ s ++ post)) eqn:Hm; [|reflexivity].
  apply matches_sha256_spec in Hm as [Hlen' _].
  rewrite !string_length_app in Hlen'. lia.
Qed.

(** The sample fingerprint followed by a line break is refused. *)
Lemma padded_fingerprint_refused_witness :
  matches_sha256 (Sample.lower_hash ++ String (ascii_of_nat 10) EmptyString) = false.
Proof.
  exact (padded_fingerprint_refused Sample.lower_hash ""
           (String (ascii_of_nat 10) EmptyString) eq_refl ltac:(discriminate)).
Defined.

Lemma hex_class_lower (c : ascii) : hex_class c = true -> hex_class (lower_ascii c) = true.
Proof.
  destruct c as [[] [] [] [] [] [] [] []]; vm_compute; intros Hc;
    try discriminate; reflexivity.
Qed.

Lemma hex_class_upper (c : ascii) : hex_class c = true -> hex_class (upper_ascii c) = true.
Proof.
  destruct c as [[] [] [] [] [] [] [] []]; vm_compute; intros Hc;
    try discriminate; reflexivity.
Qed.

Lemma lower_upper_ascii (c : ascii) :
  hex_class c = true -> lower_ascii (upper_ascii c) = lower_ascii c.
Proof.
  destruct c as [[] [] [] [] [] [] [] []]; vm_compute; intros Hc;
    try discriminate; reflexivity.
Qed.

Lemma match_repeat_case (n : nat) (s : string) :
  match_repeat n s = true ->
  match_repeat n (toLowerCase s) = true /\
  match_repeat n (toUpperCase s) = true /\
  toLowerCase (toUpperCase s) = toLowerCase s.
Proof.
  revert s. induction n as [|n IH]; intros [|c s]; cbn; try discriminate.
  - auto.
  - intros Hm. apply andb_true_iff in Hm as [Hc Hs].
    destruct (IH s Hs) as (Hlow & Hup & Hsame).
    rewrite (hex_class_lower c Hc), (hex_class_upper c Hc), Hlow, Hup.
    rewrite (lower_upper_ascii c Hc), Hsame. auto.
Qed.

(** The pattern does not care about the case of the letters: both the
    lower-case and the upper-case spelling of an accepted fingerprint are
    accepted, and they are spellings of the same fingerprint. *)
Theorem accepted_in_both_cases (s : string) :
  matches_sha256 s = true ->
  matches_sha256 (toLowerCase s) = true /\
  matches_sha256 (toUpperCase s) = true /\
  toLowerCase (toUpperCase s) = toLowerCase s.
Proof. apply match_repeat_case. Qed.

Lemma accepted_in_both_cases_witness :
  matches_sha256 (toUpperCase Sample.lower_hash) = true /\
  toUpperCase Sample.lower_hash = Sample.upper_hash.
Proof.
  destruct (accepted_in_both_cases Sample.lower_hash eq_refl) as (_ & Hupper & _).
  split; [exact Hupper|reflexivity].
Defined.

(* ===================================================================== *)
(** * More on the severity level *)
(* ===================================================================== *)

Lemma getSeverityLevel_cases (r : ScanResult) :
  (totalBad r < 0 /\ getSeverityLevel (Some r) = "Low Risk") \/
  (totalBad r = 0 /\ getSeverityLevel (Some r) = "Clean") \/
  (1 <= totalBad r <= 2 /\ getSeverityLevel (Some r) = "Low Risk") \/
  (3 <= totalBad r <= 5 /\ getSeverityLevel (Some r) = "Moderate Risk") \/
  (6 <= totalBad r <= 10 /\ getSeverityLevel (Some r) = "High Risk") \/
  (10 < totalBad r /\ getSeverityLevel (Some r) = "Critical Risk").
Proof.
  unfold getSeverityLevel, totalBad.
  set (t := (malicious (stats r) + suspicious (stats r))%Z).
  destruct (Z.eqb_spec t 0); [right; left; auto|].
  destruct (Z.leb_spec t 2).
  { destruct (Z_lt_le_dec t 0); [left; auto|right; right; left; split; [lia|reflexivity]]. }
  destruct (Z.leb_spec t 5); [right; right; right; left; split; [lia|reflexivity]|].
  destruct (Z.leb_spec t 10); [right; right; right; right; left; split; [lia|reflexivity]|].
  right; right; right; right; right. split; [lia|reflexivity].
Qed.

(** The level depends on the sum [malicious + suspicious] alone; among
    results whose sum is not negative a larger sum never gives a lower
    level; and a negative sum, which the code does not exclude, is a 'Low
    Risk'. *)
Theorem getSeverityLevel_monotone (r1 r2 : ScanResult) :
  (totalBad r1 = totalBad r2 ->
   getSeverityLevel (Some r1) = getSeverityLevel (Some r2)) /\
  (0 <= totalBad r1 <= totalBad r2 ->
   (severity_rank (getSeverityLevel (Some r1))
      <= severity_rank (getSeverityLevel (Some r2)))%nat) /\
  (totalBad r1 < 0 -> getSeverityLevel (Some r1) = "Low Risk").
Proof.
  split; [|split].
  - unfold getSeverityLevel, totalBad. intros ->. reflexivity.
  - intros Hle.
    destruct (getSeverityLevel_cases r1) as [[H1 ->]|[[H1 ->]|[[H1 ->]|[[H1 ->]|[[H1 ->]|[H1 ->]]]]]];
    destruct (getSeverityLevel_cases r2) as [[H2 ->]|[[H2 ->]|[[H2 ->]|[[H2 ->]|[[H2 ->]|[H2 ->]]]]]];
    cbn; lia.
  - intros Hneg.
    destruct (getSeverityLevel_cases r1) as [[H1 ->]|[[H1 _]|[[H1 ->]|[[H1 _]|[[H1 _]|[H1 _]]]]]];
      try reflexivity; lia.
Qed.

(** The sample (4 detections) against a result without detections. *)
Lemma getSeverityLevel_monotone_witness :
  (severity_rank (getSeverityLevel (Some Sample.blank))
     <= severity_rank (getSeverityLevel (Some Sample.scan)))%nat.
Proof.
  destruct (getSeverityLevel_monotone Sample.blank Sample.scan) as (_ & Hmono & _).
  apply Hmono. vm_compute. split; discriminate.
Defined.

(** On the file screen the colour of the severity line tells the levels
    apart: it is the grey of the [default] case exactly when there is no
    result, and two results are given the same colour only when they have
    the same level. *)
Theorem severityColor_tells_levels_apart (results1 results2 : option ScanResult) :
  (ExploreRender.severityColor (getSeverityLevel results1) = "#9E9E9E"
     <-> results1 = None) /\
  (ExploreRender.severityColor (getSeverityLevel results1)
     = ExploreRender.severityColor (getSeverityLevel results2) ->
   getSeverityLevel results1 = getSeverityLevel results2).
Proof.
  assert (Hlevel : forall results : option ScanResult,
    (results = None /\ getSeverityLevel results = "Unknown") \/
    (results <> None /\
     In (getSeverityLevel results)
        ["Clean"; "Low Risk"; "Moderate Risk"; "High Risk"; "Critical Risk"])).
  { intros [r|]; [right|left; auto]. split; [discriminate|].
    destruct (getSeverityLevel_cases r) as [[_ ->]|[[_ ->]|[[_ ->]|[[_ ->]|[[_ ->]|[_ ->]]]]]];
      cbn; tauto. }
  split.
  - destruct (Hlevel results1) as [[-> ->]|[Hsome Hin]].
    + split; reflexivity.
    + split; [|contradiction].
      cbn in Hin. destruct Hin as [<-|[<-|[<-|[<-|[<-|[]]]]]]; discriminate.
  - destruct (Hlevel results1) as [[_ ->]|[_ Hin1]];
    destruct (Hlevel results2) as [[_ ->]|[_ Hin2]]; cbn in *;
      repeat match goal with
             | H : _ \/ _ |- _ => destruct H as [<-|H]
             | H : False |- _ => destruct H
             end; cbn; intros Heq; try reflexivity; discriminate.
Qed.

(** On the hash screen, in the light and in the dark theme alike, the
    colour of the shield is the grey of the [default] case exactly when
    there is no result, and two results are given the same colour only when
    they have the same level. *)
Theorem shield_color_tells_levels_apart (colorScheme : option ColorScheme)
    (results1 results2 : option ScanResult) :
  let theme := HomeRender.theme_of colorScheme in
  (HomeRender.severityColor (getSeverityLevel results1) theme = "#999"
     <-> results1 = None) /\
  (HomeRender.severityColor (getSeverityLevel results1) theme
     = HomeRender.severityColor (getSeverityLevel results2) theme ->
   getSeverityLevel results1 = getSeverityLevel results2).
Proof.
  assert (Hlevel : forall results : option ScanResult,
    (results = None /\ getSeverityLevel results = "Unknown") \/
    (results <> None /\
     In (getSeverityLevel results)
        ["Clean"; "Low Risk"; "Moderate Risk"; "High Risk"; "Critical Risk"])).
  { intros [r|]; [right|left; auto]. split; [discriminate|].
    destruct (getSeverityLevel_cases r) as [[_ ->]|[[_ ->]|[[_ ->]|[[_ ->]|[[_ ->]|[_ ->]]]]]];
      cbn; tauto. }
  cbn zeta. split.
  - destruct (Hlevel results1) as [[-> ->]|[Hsome Hin]].
    + split; reflexivity.
    + split; [|contradiction].
      cbn in Hin.
      destruct colorScheme as [[]|];
        destruct Hin as [<-|[<-|[<-|[<-|[<-|[]]]]]]; discriminate.
  - destruct (Hlevel results1) as [[_ ->]|[_ Hin1]];
    destruct (Hlevel results2) as [[_ ->]|[_ Hin2]]; cbn in *;
      repeat match goal with
             | H : _ \/ _ |- _ => destruct H as [<-|H]
             | H : False |- _ => destruct H
             end;
      destruct colorScheme as [[]|]; cbn; intros Heq; try reflexivity; discriminate.
Qed.

(* ===================================================================== *)
(** * The file flow, from the picker to the lookup *)
(* ===================================================================== *)

Section FileFlow.
Context `{Runtime}.

#[local] Arguments Explore.checkVirusTotal : simpl never.

(** A picker that is dismissed, or that returns no asset, changes
    nothing: no event, and the state and the store are as before. *)
Theorem dismissed_picker_changes_nothing (dev : Explore.Device) (net : Network)
    (w : World Explore.State) (result : Explore.DocumentPickerResult) :
  Explore.getDocumentAsync dev = Fulfilled result ->
  Explore.assets result = None \/ Explore.assets result = Some [] ->
  Explore.pickDocument dev net w = (Fulfilled tt, w) /\
  events_of (Explore.pickDocument dev net) w = [].
Proof.
  intros Hpick Hnone.
  assert (Hrun : Explore.pickDocument dev net w = (Fulfilled tt, w)).
  { unfold Explore.pickDocument, try_catch, bind, await. rewrite Hpick.
    destruct Hnone as [-> | ->]; reflexivity. }
  split; [exact Hrun|].
  apply events_of_app. rewrite Hrun. cbn [snd]. symmetry. apply app_nil_r.
Qed.

(** A picker that fails ends the interaction with the one message 'Error
    picking file: ' followed by the error's message; the store is not
    touched and the file, the results and the spinner stay as they were. *)
Theorem picker_failure_is_reported (dev : Explore.Device) (net : Network)
    (w : World Explore.State) (err : JSError) :
  Explore.getDocumentAsync dev = Rejected err ->
  let w1 := snd (Explore.pickDocument dev net w) in
  events_of (Explore.pickDocument dev net) w
    = [SetError ("Error picking file: " ++ message err)] /\
  storage w1 = storage w /\
  ui w1 = {| Explore.file := Explore.file (ui w);
             Explore.results := Explore.results (ui w);
             Explore.loading := Explore.loading (ui w);
             Explore.error := "Error picking file: " ++ message err |}.
Proof.
  intros Hpick w1.
  assert (Hrun : Explore.pickDocument dev net w =
    (Fulfilled tt,
     {| ui := {| Explore.file := Explore.file (ui w);
                 Explore.results := Explore.results (ui w);
                 Explore.loading := Explore.loading (ui w);
                 Explore.error := "Error picking file: " ++ message err |};
        storage := storage w;
        trace := trace w ++ [SetError ("Error picking file: " ++ message err)] |})).
  { unfold Explore.pickDocument, try_catch, bind, await. rewrite Hpick. reflexivity. }
  unfold w1. split; [|split].
  - apply events_of_app. rewrite Hrun. reflexivity.
  - rewrite Hrun. reflexivity.
  - rewrite Hrun. reflexivity.
Qed.

(** When the picked file cannot be fetched, or its blob cannot be had, the
    interaction ends with the message 'Error generating hash: ' followed by
    the error's message and with the spinner off; the picked file is kept,
    and neither the store nor the network is used. *)
Theorem unreadable_file_is_reported (dev : Explore.Device) (net : Network)
    (w : World Explore.State) (selectedFile : Explore.Asset)
    (others : list Explore.Asset) (err : JSError) :
  Explore.getDocumentAsync dev =
    Fulfilled {| Explore.assets := Some (selectedFile :: others) |} ->
  Explore.fetch dev (Explore.asset_uri selectedFile) = Rejected err \/
  Explore.fetch dev (Explore.asset_uri selectedFile)
    = Fulfilled {| Explore.blob := Rejected err |} ->
  let w1 := snd (Explore.pickDocument dev net w) in
  events_of (Explore.pickDocument dev net) w
    = [SetError ""; SetError ("Error generating hash: " ++ message err)] /\
  storage w1 = storage w /\
  ui w1 = {| Explore.file := Some (file_of_asset selectedFile);
             Explore.results := Explore.results (ui w);
             Explore.loading := false;
             Explore.error := "Error generating hash: " ++ message err |}.
Proof.
  intros Hpick Hfetch w1. unfold w1. destruct w as [s store t].
  unfold events_of, Explore.pickDocument, Explore.generateHash.
  unfold try_catch, detached, bind, await. cbn. rewrite Hpick. cbn.
  destruct Hfetch as [-> | ->]; cbn;
    rewrite <- !app_assoc, drop_app_length; repeat split.
Qed.

Lemma pickDocument_digested (dev : Explore.Device) (net : Network)
    (w : World Explore.State) (selectedFile : Explore.Asset)
    (others : list Explore.Asset) (reader_result hash : string) :
  Explore.getDocumentAsync dev =
    Fulfilled {| Explore.assets := Some (selectedFile :: others) |} ->
  Explore.fetch dev (Explore.asset_uri selectedFile) =
    Fulfilled {| Explore.blob :=
                   Fulfilled {| Explore.readAsText := Some reader_result |} |} ->
  Explore.digestStringAsync dev reader_result = Fulfilled hash ->
  Explore.pickDocument dev net w =
    (Fulfilled tt,
     {| ui := {| Explore.file := Some (file_of_asset selectedFile);
                 Explore.results :=
                   match lookup_verdict net (storage w) hash with
                   | Fulfilled r => Some r
                   | Rejected _ => Explore.results (ui w)
                   end;
                 Explore.loading := false;
                 Explore.error :=
                   match lookup_verdict net (storage w) hash with
                   | Fulfilled _ => ""
                   | Rejected err => "VirusTotal Error: " ++ error_text err
                   end |};
        storage := lookup_storage net (storage w) hash;
        trace := trace w ++ SetError "" :: GetItem hash
                   :: lookup_events net (storage w) hash |}).
Proof.
  intros Hpick Hfetch Hdigest. destruct w as [s store t].
  unfold Explore.pickDocument, Explore.generateHash.
  unfold try_catch, detached, bind, await. cbn. rewrite Hpick. cbn.
  rewrite Hfetch. cbn. rewrite Hdigest. cbn.
  rewrite checkVirusTotal_run. cbn. rewrite <- !app_assoc. reflexivity.
Qed.

Lemma pickDocument_digest_rejected (dev : Explore.Device) (net : Network)
    (w : World Explore.State) (selectedFile : Explore.Asset)
    (others : list Explore.Asset) (reader_result : string) (err : JSError) :
  Explore.getDocumentAsync dev =
    Fulfilled {| Explore.assets := Some (selectedFile :: others) |} ->
  Explore.fetch dev (Explore.asset_uri selectedFile) =
    Fulfilled {| Explore.blob :=
                   Fulfilled {| Explore.readAsText := Some reader_result |} |} ->
  Explore.digestStringAsync dev reader_result = Rejected err ->
  Explore.pickDocument dev net w =
    (Fulfilled tt,
     {| ui := {| Explore.file := Some (file_of_asset selectedFile);
                 Explore.results := Explore.results (ui w);
                 Explore.loading := true;
                 Explore.error := "" |};
        storage := storage w;
        trace := trace w ++ [SetError ""; UnhandledRejection err] |}).
Proof.
  intros Hpick Hfetch Hdigest. destruct w as [s store t].
  unfold Explore.pickDocument, Explore.generateHash.
  unfold try_catch, detached, bind, await. cbn. rewrite Hpick. cbn.
  rewrite Hfetch. cbn. rewrite Hdigest. cbn. rewrite <- ?app_assoc. reflexivity.
Qed.

(** A file that is picked, read and digested is looked up under its
    digest: after the clearing of the error text the cache is read at the
    digest and the lookup goes on as [lookup_events] lists; the store is
    the one the lookup leaves; the picked file is kept, the spinner is off,
    and the screen holds the result of the lookup, or its error text and
    the results it had. *)
Theorem picked_file_is_looked_up (dev : Explore.Device) (net : Network)
    (w : World Explore.State) (selectedFile : Explore.Asset)
    (others : list Explore.Asset) (reader_result hash : string) :
  Explore.getDocumentAsync dev =
    Fulfilled {| Explore.assets := Some (selectedFile :: others) |} ->
  Explore.fetch dev (Explore.asset_uri selectedFile) =
    Fulfilled {| Explore.blob :=
                   Fulfilled {| Explore.readAsText := Some reader_result |} |} ->
  Explore.digestStringAsync dev reader_result = Fulfilled hash ->
  let w1 := snd (Explore.pickDocument dev net w) in
  events_of (Explore.pickDocument dev net) w
    = SetError "" :: GetItem hash :: lookup_events net (storage w) hash /\
  (http_calls (events_of (Explore.pickDocument dev net) w) <= 1)%nat /\
  storage w1 = lookup_storage net (storage w) hash /\
  ui w1 = {| Explore.file := Some (file_of_asset selectedFile);
             Explore.results :=
               match lookup_verdict net (storage w) hash with
               | Fulfilled r => Some r
               | Rejected _ => Explore.results (ui w)
               end;
             Explore.loading := false;
             Explore.error :=
               match lookup_verdict net (storage w) hash with
               | Fulfilled _ => ""
               | Rejected err => "VirusTotal Error: " ++ error_text err
               end |}.
Proof.
  intros Hpick Hfetch Hdigest w1.
  pose proof (pickDocument_digested dev net w selectedFile others reader_result hash
                Hpick Hfetch Hdigest) as Hrun.
  assert (Hevents : events_of (Explore.pickDocument dev net) w
            = SetError "" :: GetItem hash :: lookup_events net (storage w) hash).
  { apply events_of_app. rewrite Hrun. reflexivity. }
  unfold w1. split; [exact Hevents|]. split; [|split].
  - rewrite Hevents. unfold http_calls. cbn [List.filter is_HttpGet].
    apply lookup_events_http_calls.
  - rewrite Hrun. reflexivity.
  - rewrite Hrun. reflexivity.
Qed.

(** What the file screen shows once a file is picked, read and digested:
    the button reads 'Reselect File' and is enabled, the spinner is gone
    and the picked file is named; a lookup that fails gives the text
    'VirusTotal Error: ...' and hides the results in the state, and one
    that gives a result shows that result: its level after 'Severity: ',
    its counts, its chart data and one card per vendor. *)
Theorem file_screen_shows_lookup_outcome {N} `{Number N}
    (colorScheme : option ColorScheme) (dev : Explore.Device) (net : Network)
    (w : World Explore.State) (selectedFile : Explore.Asset)
    (others : list Explore.Asset) (reader_result hash : string) :
  Explore.getDocumentAsync dev =
    Fulfilled {| Explore.assets := Some (selectedFile :: others) |} ->
  Explore.fetch dev (Explore.asset_uri selectedFile) =
    Fulfilled {| Explore.blob :=
                   Fulfilled {| Explore.readAsText := Some reader_result |} |} ->
  Explore.digestStringAsync dev reader_result = Fulfilled hash ->
  let screen :=
    ExploreRender.render (N := N) colorScheme
      (ui (snd (Explore.pickDocument dev net w))) in
  ExploreRender.buttonText screen = "Reselect File" /\
  ExploreRender.disabled screen = false /\
  ExploreRender.activityIndicator screen = false /\
  ExploreRender.fileInfo screen = Some (file_of_asset selectedFile) /\
  (forall err, lookup_verdict net (storage w) hash = Rejected err ->
     ExploreRender.body screen
       = ExploreRender.ErrorText ("VirusTotal Error: " ++ error_text err)) /\
  (forall r, lookup_verdict net (storage w) hash = Fulfilled r ->
     exists severity_color cards,
       ExploreRender.body screen
         = ExploreRender.Results ("Severity: " ++ getSeverityLevel (Some r))
             severity_color
             (Explore.pieData (ExploreRender.theme_of colorScheme) (Some r))
             (stats r) cards /\
       length cards = length (vendors r)).
Proof.
  intros Hpick Hfetch Hdigest screen. unfold screen.
  rewrite (pickDocument_digested dev net w selectedFile others reader_result hash
             Hpick Hfetch Hdigest).
  cbn [snd ui]. unfold ExploreRender.render.
  cbn [ExploreRender.buttonText ExploreRender.disabled ExploreRender.activityIndicator
       ExploreRender.fileInfo ExploreRender.body
       Explore.file Explore.loading Explore.error Explore.results].
  split; [reflexivity|]. split; [reflexivity|]. split; [reflexivity|].
  split; [reflexivity|]. split.
  - intros err Herr. rewrite Herr. reflexivity.
  - intros r Hr. rewrite Hr. cbn [String.eqb negb].
    eexists _, _. split; [reflexivity|]. apply length_imap.
Qed.

(** A digest that is rejected leaves the screen on the verdict it had: the
    new file is named, the spinner is on and the button stays disabled,
    and below them the results of the earlier lookup are shown as if they
    were the new file's. *)
Theorem rejected_digest_shows_earlier_results {N} `{Number N}
    (colorScheme : option ColorScheme) (dev : Explore.Device) (net : Network)
    (w : World Explore.State) (selectedFile : Explore.Asset)
    (others : list Explore.Asset) (reader_result : string) (err : JSError)
    (earlier : ScanResult) :
  Explore.getDocumentAsync dev =
    Fulfilled {| Explore.assets := Some (selectedFile :: others) |} ->
  Explore.fetch dev (Explore.asset_uri selectedFile) =
    Fulfilled {| Explore.blob :=
                   Fulfilled {| Explore.readAsText := Some reader_result |} |} ->
  Explore.digestStringAsync dev reader_result = Rejected err ->
  Explore.results (ui w) = Some earlier ->
  let screen :=
    ExploreRender.render (N := N) colorScheme
      (ui (snd (Explore.pickDocument dev net w))) in
  ExploreRender.fileInfo screen = Some (file_of_asset selectedFile) /\
  ExploreRender.disabled screen = true /\
  ExploreRender.activityIndicator screen = true /\
  exists severity_color cards,
    ExploreRender.body screen
      = ExploreRender.Results ("Severity: " ++ getSeverityLevel (Some earlier))
          severity_color
          (Explore.pieData (ExploreRender.theme_of colorScheme) (Some earlier))
          (stats earlier) cards /\
    length cards = length (vendors earlier).
Proof.
  intros Hpick Hfetch Hdigest Hearlier screen. unfold screen.
  rewrite (pickDocument_digest_rejected dev net w selectedFile others reader_result err
             Hpick Hfetch Hdigest).
  cbn [snd ui]. unfold ExploreRender.render.
  cbn [ExploreRender.buttonText ExploreRender.disabled ExploreRender.activityIndicator
       ExploreRender.fileInfo ExploreRender.body
       Explore.file Explore.loading Explore.error Explore.results].
  rewrite Hearlier. cbn [String.eqb negb].
  split; [reflexivity|]. split; [reflexivity|]. split; [reflexivity|].
  eexists _, _. split; [reflexivity|]. apply length_imap.
Qed.
End FileFlow.

Lemma dismissed_picker_changes_nothing_witness :
  events_of (Explore.pickDocument (H := Sample.runtime) dismissed_picker Sample.net_ok)
            (world Explore.initial ∅) = [].
Proof.
  exact (proj2 (dismissed_picker_changes_nothing (H := Sample.runtime)
                  dismissed_picker Sample.net_ok (world Explore.initial ∅)
                  {| Explore.assets := None |} eq_refl (or_introl eq_refl))).
Defined.

Lemma picker_failure_is_reported_witness :
  events_of (Explore.pickDocument (H := Sample.runtime) Devices.picker_fails Sample.net_ok)
            (world Explore.initial ∅)
    = [SetError "Error picking file: Picker unavailable"].
Proof.
  exact (proj1 (picker_failure_is_reported (H := Sample.runtime)
                  Devices.picker_fails Sample.net_ok (world Explore.initial ∅)
                  _ eq_refl)).
Defined.

Lemma unreadable_file_is_reported_witness :
  events_of (Explore.pickDocument (H := Sample.runtime) Devices.fetch_fails Sample.net_ok)
            (world Explore.initial ∅)
    = [SetError ""; SetError "Error generating hash: Network request failed"].
Proof.
  exact (proj1 (unreadable_file_is_reported (H := Sample.runtime)
                  Devices.fetch_fails Sample.net_ok (world Explore.initial ∅)
                  _ _ _ eq_refl (or_introl eq_refl))).
Defined.

Lemma picked_file_is_looked_up_witness :
  let w1 := snd (Explore.pickDocument (H := Sample.runtime) Devices.working
                   Sample.net_ok (world Explore.initial ∅)) in
  storage w1 = {[ Sample.lower_hash := Sample.json_ScanResult Sample.scan ]} /\
  Explore.results (ui w1) = Some Sample.scan.
Proof.
  cbn zeta.
  destruct (picked_file_is_looked_up (H := Sample.runtime) Devices.working
              Sample.net_ok (world Explore.initial ∅) _ _ _ _
              eq_refl eq_refl eq_refl) as (_ & _ & Hstore & Hui).
  split.
  - rewrite Hstore. reflexivity.
  - rewrite Hui. reflexivity.
Defined.

(** The sample file on a working device, with the service answering. *)
Lemma file_screen_shows_lookup_outcome_witness :
  ExploreRender.buttonText
    (ExploreRender.render (H := xnum_Number) None
       (ui (snd (Explore.pickDocument (H := Sample.runtime) Devices.working
                   Sample.net_ok (world Explore.initial ∅)))))
    = "Reselect File".
Proof.
  exact (proj1 (file_screen_shows_lookup_outcome (H := Sample.runtime)
                  (H0 := xnum_Number) None Devices.working Sample.net_ok
                  (world Explore.initial ∅) _ _ _ _ eq_refl eq_refl eq_refl)).
Defined.

(** A second file whose digest fails, picked while the result of the
    sample is on the screen. *)
Lemma rejected_digest_shows_earlier_results_witness :
  let w1 := snd (Explore.pickDocument (H := Sample.runtime) Devices.working
                   Sample.net_ok (world Explore.initial ∅)) in
  let w2 := snd (Explore.pickDocument (H := Sample.runtime) Devices.digest_fails
                   Sample.net_ok w1) in
  ExploreRender.disabled (ExploreRender.render (H := xnum_Number) None (ui w2)) = true.
Proof.
  cbn zeta.
  exact (proj1 (proj2 (rejected_digest_shows_earlier_results (H := Sample.runtime)
                         (H0 := xnum_Number) None Devices.digest_fails Sample.net_ok
                         (snd (Explore.pickDocument (H := Sample.runtime)
                                 Devices.working Sample.net_ok
                                 (world Explore.initial ∅)))
                         _ _ _ _ Sample.scan eq_refl eq_refl eq_refl eq_refl))).
Defined.

(* ===================================================================== *)
(** * The keys of the file flow *)
(* ===================================================================== *)

Section FileFlowKeys.
Context `{Runtime}.

#[local] Arguments Explore.checkVirusTotal : simpl never.

Lemma lookup_events_well_keyed (net : Network) (store : gmap string string)
    (hash : string) :
  matches_sha256 hash = true -> Forall well_keyed (lookup_events net store hash).
Proof.
  intros Hv. unfold lookup_events.
  destruct (truthy (store !! hash)) as [cachedResult|].
  - destruct (JSON_parse cachedResult); repeat constructor.
  - constructor; [exists hash; split; [reflexivity|exact Hv]|].
    destruct (normalize (net (files_url hash))); repeat constructor. exact Hv.
Qed.

(** Whatever the device does, the file flow reads the cache, asks the
    service and writes the cache only under digests. *)
Lemma pickDocument_well_keyed (dev : Explore.Device) (net : Network)
    (w : World Explore.State) :
  sha256_digests dev -> Forall well_keyed (events_of (Explore.pickDocument dev net) w).
Proof.
  intros Hdigests.
  destruct (Explore.getDocumentAsync dev) as [[[[|selectedFile others]|]]|err] eqn:Hpick.
  - assert (Hrun : Explore.pickDocument dev net w = (Fulfilled tt, w)).
    { destruct w as [s store t]. unfold Explore.pickDocument, try_catch, bind, await.
      rewrite Hpick. reflexivity. }
    rewrite (events_of_app _ w []); [constructor|].
    rewrite Hrun. cbn [snd]. symmetry. apply app_nil_r.
  - destruct (Explore.fetch dev (Explore.asset_uri selectedFile))
      as [[[[[reader_result|]]|err]]|err] eqn:Hfetch.
    + destruct (Explore.digestStringAsync dev reader_result) as [hash|err] eqn:Hdigest.
      * rewrite (events_of_app _ w
                   (SetError "" :: GetItem hash :: lookup_events net (storage w) hash)).
        -- pose proof (Hdigests _ _ Hdigest) as Hv.
           constructor; [exact I|]. constructor; [exact Hv|].
           apply lookup_events_well_keyed, Hv.
        -- rewrite (pickDocument_digested dev net w selectedFile others reader_result
                      hash Hpick Hfetch Hdigest). reflexivity.
      * rewrite (events_of_app _ w [SetError ""; UnhandledRejection err]).
        -- repeat constructor.
        -- rewrite (pickDocument_digest_rejected dev net w selectedFile others
                      reader_result err Hpick Hfetch Hdigest). reflexivity.
    + rewrite (events_of_app _ w [SetError ""]); [repeat constructor|].
      destruct w as [s store t].
      unfold Explore.pickDocument, Explore.generateHash.
      unfold try_catch, detached, bind, await. cbn. rewrite Hpick. cbn.
      rewrite Hfetch. cbn. rewrite <- ?app_assoc. reflexivity.
    + rewrite (events_of_app _ w
                 [SetError ""; SetError ("Error generating hash: " ++ message err)]);
        [repeat constructor|].
      destruct w as [s store t].
      unfold Explore.pickDocument, Explore.generateHash.
      unfold try_catch, detached, bind, await. cbn. rewrite Hpick. cbn.
      rewrite Hfetch. cbn. rewrite <- ?app_assoc. reflexivity.
    + rewrite (events_of_app _ w
                 [SetError ""; SetError ("Error generating hash: " ++ message err)]);
        [repeat constructor|].
      destruct w as [s store t].
      unfold Explore.pickDocument, Explore.generateHash.
      unfold try_catch, detached, bind, await. cbn. rewrite Hpick. cbn.
      rewrite Hfetch. cbn. rewrite <- ?app_assoc. reflexivity.
  - assert (Hrun : Explore.pickDocument dev net w = (Fulfilled tt, w)).
    { destruct w as [s store t]. unfold Explore.pickDocument, try_catch, bind, await.
      rewrite Hpick. reflexivity. }
    rewrite (events_of_app _ w []); [constructor|].
    rewrite Hrun. cbn [snd]. symmetry. apply app_nil_r.
  - rewrite (events_of_app _ w [SetError ("Error picking file: " ++ message err)]);
      [repeat constructor|].
    destruct w as [s store t]. unfold Explore.pickDocument, try_catch, bind, await.
    rewrite Hpick. reflexivity.
Qed.

(** C2.  An input that does not match the pattern is refused by the
    hash-entry flow: the message 'Invalid SHA256 format' is its only event,
    so it makes no request and neither reads nor writes the cache, and the
    store and the displayed result are as before.  The file-upload flow
    takes no fingerprint from the user: the only keys it reads the cache,
    asks the service or writes the cache under are the digests of
    [Crypto.digestStringAsync], which match the pattern, so that no lookup
    of either flow is made under a text that does not match. *)
Theorem malformed_fingerprint_is_never_looked_up :
  (forall (net : Network) (input : string) (w : World Home.State),
      matches_sha256 input = false ->
      let w1 := snd (Home.lookup net input w) in
      events_of (Home.lookup net input) w = [SetError "Invalid SHA256 format"] /\
      storage w1 = storage w /\
      Home.shaError (ui w1) = "Invalid SHA256 format" /\
      Home.shaResults (ui w1) = Home.shaResults (ui w)) /\
  (forall (dev : Explore.Device) (net : Network) (w : World Explore.State),
      sha256_digests dev ->
      Forall well_keyed (events_of (Explore.pickDocument dev net) w)).
Proof.
  split.
  - intros net input w Hv w1. unfold w1.
    rewrite (Home_lookup_invalid net input w Hv). cbn [snd storage ui Home.shaError
      Home.shaResults]. repeat split.
    apply events_of_app. rewrite (Home_lookup_invalid net input w Hv). reflexivity.
  - exact pickDocument_well_keyed.
Qed.
End FileFlowKeys.

(** A string of 63 characters is refused by the hash screen, and the file
    flow of a working device looks up the digest of the file. *)
Lemma malformed_fingerprint_is_never_looked_up_witness :
  let input := string_of_list_ascii (repeat "a"%char 63) in
  events_of (Home.lookup (H := Sample.runtime) Sample.net_ok input) (world Home.initial ∅)
    = [SetError "Invalid SHA256 format"] /\
  storage (snd (Home.lookup (H := Sample.runtime) Sample.net_ok input
                  (world Home.initial ∅))) = ∅ /\
  Forall well_keyed
    (events_of (Explore.pickDocument (H := Sample.runtime) Devices.working Sample.net_ok)
       (world Explore.initial ∅)).
Proof.
  cbn zeta.
  destruct (malformed_fingerprint_is_never_looked_up (H := Sample.runtime))
    as (Hhash & Hfile).
  destruct (Hhash Sample.net_ok (string_of_list_ascii (repeat "a"%char 63))
              (world Home.initial ∅) eq_refl) as (Hevents & Hstore & _).
  split; [exact Hevents|]. split; [exact Hstore|].
  apply Hfile. intros text hash Hdigest.
  injection Hdigest as <-. reflexivity.
Defined.

(* ===================================================================== *)
(** * What the hash screen shows *)
(* ===================================================================== *)

Section HomeScreen.
Context `{Runtime}.

Lemma Home_lookup_valid net input (w : World Home.State) :
  matches_sha256 input = true ->
  ui (snd (Home.lookup net input w)) =
    {| Home.shaInput := input;
       Home.shaResults :=
         match lookup_verdict net (storage w) input with
         | Fulfilled r => Some r
         | Rejected _ => Home.shaResults (ui w)
         end;
       Home.shaLoading := false;
       Home.shaError :=
         match lookup_verdict net (storage w) input with
         | Fulfilled _ => ""
         | Rejected err => "VirusTotal Error: " ++ error_text err
         end;
       Home.progressAnim :=
         match lookup_verdict net (storage w) input with
         | Fulfilled _ => 1%Q
         | Rejected _ => 0%Q
         end |}.
Proof.
  intros Hv. unfold Home.lookup, bind, Home.enter_hash, set_ui. cbn [fst snd].
  match goal with |- context [Home.checkHash net ?w0] => set (w' := w0) end.
  rewrite (checkHash_valid net w' Hv). reflexivity.
Qed.

(** After a press of the button the hash screen shows the outcome of that
    press and nothing older.  A refused input gives the error card
    'Invalid SHA256 format', also when a result was on the screen.  An
    accepted input whose lookup fails gives the error card 'VirusTotal
    Error: ...', the result in the state staying hidden; one whose lookup
    gives a result shows the card of that result, fully opaque, with its
    level, its chart data and one vendor card per vendor.  After an
    accepted input the button is enabled again. *)
Theorem hash_screen_shows_last_outcome {N} `{Number N}
    (colorScheme : option ColorScheme) (net : Network) (input : string)
    (w : World Home.State) :
  let screen := HomeRender.render (N := N) colorScheme (ui (snd (Home.lookup net input w))) in
  HomeRender.inputValue screen = input /\
  (matches_sha256 input = false ->
     HomeRender.body screen = HomeRender.ErrorCard "Invalid SHA256 format" /\
     HomeRender.progressBar screen = 0%Q /\
     HomeRender.disabled screen = Home.shaLoading (ui w)) /\
  (matches_sha256 input = true ->
     HomeRender.disabled screen = false /\
     (forall err, lookup_verdict net (storage w) input = Rejected err ->
        HomeRender.body screen
          = HomeRender.ErrorCard ("VirusTotal Error: " ++ error_text err) /\
        HomeRender.progressBar screen = 0%Q) /\
     (forall r, lookup_verdict net (storage w) input = Fulfilled r ->
        HomeRender.progressBar screen = 1%Q /\
        exists card,
          HomeRender.body screen = HomeRender.Result card /\
          HomeRender.opacity card = 1%Q /\
          HomeRender.severityText card = getSeverityLevel (Some r) /\
          HomeRender.pie card
            = Home.pieData (HomeRender.theme_of colorScheme) (Some r) /\
          length (HomeRender.vendorCards card) = length (vendors r))).
Proof.
  cbn zeta. split; [|split].
  - destruct (matches_sha256 input) eqn:Hv.
    + rewrite (Home_lookup_valid net input w Hv). reflexivity.
    + rewrite (Home_lookup_invalid net input w Hv). reflexivity.
  - intros Hv. rewrite (Home_lookup_invalid net input w Hv). repeat split.
  - intros Hv. rewrite (Home_lookup_valid net input w Hv). split; [reflexivity|].
    split.
    + intros err ->. split; reflexivity.
    + intros r ->. split; [reflexivity|].
      eexists. split; [reflexivity|]. cbn. repeat split.
      apply length_imap.
Qed.

Lemma home_step_invariant (s s' : Home.State) :
  home_step s s' -> home_invariant s -> home_invariant s'.
Proof.
  intros Hstep [Hloading Hcases]. destruct Hstep as [net input w _].
  destruct (matches_sha256 input) eqn:Hv.
  - rewrite (Home_lookup_valid net input w Hv). split; [reflexivity|]. cbn.
    destruct (lookup_verdict net (storage w) input) as [r|err].
    + right; left. repeat split. discriminate.
    + right; right. split; [discriminate|reflexivity].
  - rewrite (Home_lookup_invalid net input w Hv). split; [exact Hloading|]. cbn.
    right; right. split; [discriminate|reflexivity].
Qed.

Lemma home_steps_invariant (s s' : Home.State) :
  rtc home_step s s' -> home_invariant s -> home_invariant s'.
Proof.
  induction 1 as [|x y z Hxy _ IH]; intros Hinv; [exact Hinv|].
  exact (IH (home_step_invariant x y Hxy Hinv)).
Qed.

(** However many times the button of the hash screen is pressed, with
    whatever text, while the store holds what the lookups of the two
    screens wrote and the service answers with failures or with reports
    that carry the counts: when the presses are over the button is enabled,
    the progress bar is empty or full, an error card is never empty and
    comes with the empty bar, and a result card is always fully opaque and
    comes with the full bar. *)
Theorem hash_screen_invariant {N} `{Number N} (colorScheme : option ColorScheme)
    (s : Home.State) :
  rtc home_step Home.initial s ->
  let screen := HomeRender.render (N := N) colorScheme s in
  HomeRender.disabled screen = false /\
  HomeRender.buttonText screen = "Check Security" /\
  match HomeRender.body screen with
  | HomeRender.ErrorCard errorText =>
      errorText <> "" /\ HomeRender.progressBar screen = 0%Q
  | HomeRender.Result card =>
      HomeRender.opacity card = 1%Q /\ HomeRender.progressBar screen = 1%Q
  | HomeRender.NoBody =>
      Home.shaResults s = None /\ HomeRender.progressBar screen = 0%Q
  end.
Proof.
  intros Hreach.
  assert (Hinv : home_invariant s).
  { apply (home_steps_invariant _ _ Hreach).
    split; [reflexivity|]. left. repeat split. }
  destruct Hinv as [Hloading Hcases]. cbn zeta.
  unfold HomeRender.render. cbn [HomeRender.disabled HomeRender.buttonText
    HomeRender.body HomeRender.progressBar].
  rewrite Hloading. split; [reflexivity|]. split; [reflexivity|].
  destruct Hcases as [(He & Hr & Hp)|[(He & Hr & Hp)|(He & Hp)]].
  - rewrite He, Hr. cbn. auto.
  - rewrite He. cbn. destruct (Home.shaResults s); [|contradiction]. cbn. auto.
  - destruct (String.eqb_spec (Home.shaError s) ""); [contradiction|]. cbn. auto.
Qed.
End HomeScreen.

(** Three presses from the initial screen: a text that is no fingerprint,
    the sample fingerprint without connectivity, the sample fingerprint
    with the service answering. *)
Lemma hash_screen_invariant_witness :
  let w0 := world Home.initial ∅ in
  let w1 := snd (Home.lookup (H := Sample.runtime) Sample.net_ok "abc" w0) in
  let w2 := snd (Home.lookup (H := Sample.runtime) Sample.net_down Sample.lower_hash w1) in
  let w3 := snd (Home.lookup (H := Sample.runtime) Sample.net_ok Sample.lower_hash w2) in
  HomeRender.disabled
    (HomeRender.render (H := xnum_Number) (Some scheme_dark) (ui w3)) = false.
Proof.
  cbn zeta.
  refine (proj1 (hash_screen_invariant (H := Sample.runtime) (H0 := xnum_Number)
                   (Some scheme_dark) _ _)).
  pose (w0 := world Home.initial ∅).
  pose (w1 := snd (Home.lookup (H := Sample.runtime) Sample.net_ok "abc" w0)).
  pose (w2 := snd (Home.lookup (H := Sample.runtime) Sample.net_down
                     Sample.lower_hash w1)).
  assert (H0 : rtc (lookup_step (H := Sample.runtime)) ∅ (storage w0))
    by apply rtc_refl.
  assert (H1 : rtc (lookup_step (H := Sample.runtime)) ∅ (storage w1)).
  { eapply rtc_r; [exact H0|]. exact (step_hash Sample.net_ok "abc" w0). }
  assert (H2 : rtc (lookup_step (H := Sample.runtime)) ∅ (storage w2)).
  { eapply rtc_r; [exact H1|]. exact (step_hash Sample.net_down Sample.lower_hash w1). }
  eapply rtc_l; [exact (home_lookup Sample.net_ok "abc" w0 H0)|].
  eapply rtc_l; [exact (home_lookup Sample.net_down Sample.lower_hash w1 H1)|].
  eapply rtc_l; [exact (home_lookup Sample.net_ok Sample.lower_hash w2 H2)|].
  apply rtc_refl.
Defined.

Lemma hash_screen_shows_last_outcome_witness :
  let w0 := world Home.initial ∅ in
  let w1 := snd (Home.lookup (H := Sample.runtime) Sample.net_ok Sample.lower_hash w0) in
  let w2 := snd (Home.lookup (H := Sample.runtime) Sample.net_ok "abc" w1) in
  Home.shaResults (ui w2) = Some Sample.scan /\
  HomeRender.body (HomeRender.render (H := xnum_Number) None (ui w2))
    = HomeRender.ErrorCard "Invalid SHA256 format".
Proof.
  cbn zeta. split; [reflexivity|].
  match goal with
  | |- context [Home.lookup Sample.net_ok "abc" ?w] =>
      destruct (hash_screen_shows_last_outcome (H := Sample.runtime)
                  (H0 := xnum_Number) None Sample.net_ok "abc" w)
        as (_ & Hrefused & _)
  end.
  exact (proj1 (Hrefused eq_refl)).
Defined.

(* ===================================================================== *)
(** * What the cache holds *)
(* ===================================================================== *)

Lemma or_else_truthy (a : option string) (b : string) : b <> "" -> or_else a b <> "".
Proof.
  intros Hb. unfold or_else. destruct a as [s|]; [|exact Hb].
  destruct (String.eqb_spec s ""); assumption.
Qed.

Lemma to_vendor_result (entry : string * EngineVerdict) : result (to_vendor entry) <> "".
Proof. destruct entry as [engine data]. cbn. apply or_else_truthy. discriminate. Qed.

Section CacheContents.
Context `{Runtime}.

Lemma normalize_normalized (answer : Settled ResponseBody) (r : ScanResult) :
  normalize answer = Fulfilled r -> normalized r.
Proof.
  unfold normalize, normalized.
  destruct answer as [[attributes|]|err]; try discriminate.
  destruct (last_analysis_results attributes) as [entries|]; [|discriminate].
  intros Hr. injection Hr as <-. cbn [vendors].
  apply List.Forall_forall. intros v Hv. apply in_map_iff in Hv as (entry & <- & _).
  apply to_vendor_result.
Qed.

Lemma lookup_storage_written net store hash :
  written_by_lookups store -> written_by_lookups (lookup_storage net store hash).
Proof.
  intros Hinv. unfold lookup_storage.
  destruct (truthy (store !! hash)); [exact Hinv|].
  destruct (normalize (net (files_url hash))) as [r|err] eqn:Hr; [|exact Hinv].
  intros key text Hkey. destruct (decide (hash = key)) as [->|Hdiff].
  - rewrite lookup_insert_eq in Hkey. injection Hkey as <-.
    exists r. split; [reflexivity|]. exact (normalize_normalized _ _ Hr).
  - rewrite lookup_insert_ne in Hkey by exact Hdiff. exact (Hinv key text Hkey).
Qed.

Lemma lookup_step_written store store' :
  lookup_step store store' -> written_by_lookups store -> written_by_lookups store'.
Proof.
  intros Hstep Hinv. destruct Hstep as [net input w|net hash w].
  - rewrite Home_lookup_storage. destruct (matches_sha256 input); [|exact Hinv].
    apply lookup_storage_written, Hinv.
  - rewrite checkVirusTotal_run. cbn. apply lookup_storage_written, Hinv.
Qed.

Lemma lookup_storage_grows net store hash :
  written_by_lookups store -> store ⊆ lookup_storage net store hash.
Proof.
  intros Hinv. unfold lookup_storage.
  destruct (truthy (store !! hash)) eqn:Hmiss; [reflexivity|].
  destruct (normalize (net (files_url hash))) as [r|err]; [|reflexivity].
  apply insert_subseteq.
  destruct (store !! hash) as [text|] eqn:Hkey; [|reflexivity].
  destruct (Hinv hash text Hkey) as (r' & -> & _).
  pose proof (truthy_None _ _ Hmiss eq_refl) as Hempty.
  destruct (JSON_stringify_truthy r' Hempty).
Qed.

(** Starting from the empty store, whatever lookups are made from the two
    screens: every entry of the store is the non-empty text of a result
    all of whose vendors have a result text; a lookup of a stored key makes
    no request; and a further lookup only adds to the store, leaving every
    entry as it is. *)
Theorem cache_holds_normalized_results (store : gmap string string) :
  rtc lookup_step ∅ store ->
  (forall key text,
      store !! key = Some text ->
      text <> "" /\ exists r, text = JSON_stringify r /\ normalized r) /\
  (forall key net (w : World Home.State),
      is_Some (store !! key) -> matches_sha256 key = true -> storage w = store ->
      http_calls (events_of (Home.lookup net key) w) = 0%nat) /\
  (forall key net (w : World Explore.State),
      is_Some (store !! key) -> storage w = store ->
      http_calls (events_of (Explore.checkVirusTotal net key) w) = 0%nat) /\
  (forall store', lookup_step store store' -> store ⊆ store').
Proof.
  intros Hreach.
  assert (Hinv : written_by_lookups store).
  { assert (Hall : forall a b, rtc lookup_step a b ->
                     written_by_lookups a -> written_by_lookups b).
    { induction 1 as [|x y z Hxy _ IH]; intros Hx; [exact Hx|].
      exact (IH (lookup_step_written x y Hxy Hx)). }
    apply (Hall _ _ Hreach). intros key text Hkey.
    rewrite lookup_empty in Hkey. discriminate. }
  assert (Htruthy : forall key text, store !! key = Some text -> text <> "").
  { intros key text Hkey. destruct (Hinv key text Hkey) as (r & -> & _).
    apply JSON_stringify_truthy. }
  split; [|split; [|split]].
  - intros key text Hkey. split; [exact (Htruthy key text Hkey)|exact (Hinv key text Hkey)].
  - intros key net w [text Hkey] Hok <-.
    exact (proj1 (follows_hit hash_flow _ quiet_hash_prefix hash_flow_follows
                    net key w text Hok Hkey (Htruthy key text Hkey))).
  - intros key net w [text Hkey] <-.
    exact (proj1 (follows_hit file_flow _ quiet_file_prefix file_flow_follows
                    net key w text eq_refl Hkey (Htruthy key text Hkey))).
  - intros store' Hstep. destruct Hstep as [net input w|net hash w].
    + rewrite Home_lookup_storage. destruct (matches_sha256 input); [|reflexivity].
      apply lookup_storage_grows, Hinv.
    + rewrite checkVirusTotal_run. cbn. apply lookup_storage_grows, Hinv.
Qed.

Lemma hash_lookup_step_keys store store' :
  hash_lookup_step store store' ->
  (forall key, is_Some (store !! key) -> matches_sha256 key = true) ->
  forall key, is_Some (store' !! key) -> matches_sha256 key = true.
Proof.
  intros Hstep Hinv key Hkey. destruct Hstep as [net input w].
  rewrite Home_lookup_storage in Hkey.
  destruct (matches_sha256 input) eqn:Hv; [|exact (Hinv key Hkey)].
  unfold lookup_storage in Hkey.
  destruct (truthy (storage w !! input)); [exact (Hinv key Hkey)|].
  destruct (normalize (net (files_url input))); [|exact (Hinv key Hkey)].
  destruct (decide (input = key)) as [<-|Hdiff]; [exact Hv|].
  rewrite lookup_insert_ne in Hkey by exact Hdiff. exact (Hinv key Hkey).
Qed.

(** The hash screen never writes the store under a text that the pattern
    refuses: from the empty store, after any lookups of the hash screen,
    every key of the store is an accepted fingerprint, spelled as it was
    typed. *)
Theorem hash_screen_keys_are_fingerprints (store : gmap string string) (key : string) :
  rtc hash_lookup_step ∅ store ->
  is_Some (store !! key) ->
  matches_sha256 key = true.
Proof.
  intros Hreach. revert key.
  assert (Hall : forall a b, rtc hash_lookup_step a b ->
            (forall key, is_Some (a !! key) -> matches_sha256 key = true) ->
            forall key, is_Some (b !! key) -> matches_sha256 key = true).
  { induction 1 as [|x y z Hxy _ IH]; intros Hx; [exact Hx|].
    exact (IH (hash_lookup_step_keys x y Hxy Hx)). }
  apply (Hall _ _ Hreach). intros key [text Hkey].
  rewrite lookup_empty in Hkey. discriminate.
Qed.

(** The cards never fall back on their default text for a result that was
    fetched: every vendor of such a result has a result text, which the
    card of the hash screen shows as it is and the card of the file screen
    shows after 'Result: '; an engine that reported no result reads
    'Clean' on the hash screen, not 'No issues found'. *)
Theorem vendor_cards_show_normalized_result (answer : Settled ResponseBody)
    (r : ScanResult) (i : nat) (v : Vendor) (theme : ThemeColors) (delay : Z) :
  normalize answer = Fulfilled r ->
  vendors r !! i = Some v ->
  result v <> "" /\
  HomeRender.vendorResult (HomeRender.AnimatedVendorCard v theme delay) = result v /\
  ExploreRender.vendorResult (ExploreRender.AnimatedVendorCard v delay)
    = "Result: " ++ result v /\
  (forall engine data,
      truthy (engine_result data) = None ->
      HomeRender.vendorResult
        (HomeRender.AnimatedVendorCard (to_vendor (engine, data)) theme delay)
        = "Clean").
Proof.
  intros Hr Hv.
  assert (Hresult : result v <> "").
  { pose proof (normalize_normalized _ _ Hr) as Hnorm. unfold normalized in Hnorm.
    apply (proj1 (Forall_lookup _ _) Hnorm i v Hv). }
  split; [exact Hresult|]. split; [|split].
  - destruct v as [name res cat]. cbn in *.
    destruct (String.eqb_spec res ""); [contradiction|]. reflexivity.
  - destruct v as [name res cat]. cbn in *.
    destruct (String.eqb_spec res ""); [contradiction|]. reflexivity.
  - intros engine data Hnone. unfold to_vendor, truthy in *.
    destruct (engine_result data) as [res|]; [|reflexivity].
    destruct (String.eqb_spec res ""); [subst res; reflexivity|discriminate].
Qed.
End CacheContents.

Lemma cache_holds_normalized_results_witness :
  let store :=
    storage (snd (Home.lookup (H := Sample.runtime) Sample.net_ok Sample.lower_hash
                    (world Home.initial ∅))) in
  store !! Sample.lower_hash = Some (Sample.json_ScanResult Sample.scan) /\
  Sample.json_ScanResult Sample.scan <> "".
Proof.
  cbn zeta. split; [reflexivity|].
  refine (proj1 (proj1 (cache_holds_normalized_results (H := Sample.runtime)
                          (storage (snd (Home.lookup (H := Sample.runtime) Sample.net_ok
                                           Sample.lower_hash (world Home.initial ∅)))) _)
                   Sample.lower_hash (Sample.json_ScanResult Sample.scan) eq_refl)).
  apply rtc_once.
  exact (step_hash Sample.net_ok Sample.lower_hash (world Home.initial ∅)).
Defined.

Lemma hash_screen_keys_are_fingerprints_witness :
  matches_sha256 Sample.lower_hash = true.
Proof.
  refine (hash_screen_keys_are_fingerprints (H := Sample.runtime)
            (storage (snd (Home.lookup (H := Sample.runtime) Sample.net_ok
                             Sample.lower_hash (world Home.initial ∅))))
            Sample.lower_hash _ _).
  - apply rtc_once.
    exact (hash_lookup_step_intro Sample.net_ok Sample.lower_hash (world Home.initial ∅)).
  - exists (Sample.json_ScanResult Sample.scan). reflexivity.
Defined.

Lemma vendor_cards_show_normalized_result_witness :
  HomeRender.vendorResult
    (HomeRender.AnimatedVendorCard
       {| vendor := "EngineB"; result := "Clean"; category := "undetected" |}
       HomeRender.themes_light 150) = "Clean".
Proof.
  exact (proj1 (proj2 (vendor_cards_show_normalized_result (H := Sample.runtime)
                         (Fulfilled (Some Sample.attributes)) Sample.scan 1%nat
                         {| vendor := "EngineB"; result := "Clean";
                            category := "undetected" |}
                         HomeRender.themes_light 150 eq_refl eq_refl))).
Defined.

(* ===================================================================== *)
(** * The arcs of the chart *)
(* ===================================================================== *)

Section Arcs.
Context {N : Type} `{Number N}.
Local Open Scope num_scope.

(** Every path of the map is an arc about the centre of the svg, of the
    radius of the chart, whose flag is decided by the angle it sweeps. *)
Lemma slices_arc (width height outerRadius progress total : N)
    (data : list (SliceData N)) (cumulativeAngle : N) (path : Path N) :
  In path (slices width height outerRadius progress total cumulativeAngle data) ->
  arc_x (d path) = width / num_of_Z 2 /\
  arc_y (d path) = height / num_of_Z 2 /\
  arc_radius (d path) = outerRadius /\
  largeArcFlag (d path) = if (span path <=? num_of_Z 180) then "0" else "1".
Proof.
  revert cumulativeAngle.
  induction data as [|slice data IH]; intros c Hin; [destruct Hin|].
  cbn [slices] in Hin. destruct Hin as [<-|Hin]; [|exact (IH _ Hin)].
  repeat split.
Qed.
End Arcs.

Section RealsOfRationals.
Local Open Scope R_scope.

Lemma Q2R_Qcmult (a b : Qc) : Q2R (a * b)%Qc = Q2R a * Q2R b.
Proof. rewrite <- Qreals.Q2R_mult. apply Qreals.Qeq_eqR, Qred_correct. Qed.

Lemma Q2R_of_Z (z : Z) : Q2R (Q2Qc (inject_Z z)) = IZR z.
Proof.
  transitivity (Q2R (inject_Z z)); [apply Qreals.Qeq_eqR, Qred_correct|].
  unfold Q2R, inject_Z. cbn [Qnum Qden]. field.
Qed.

Lemma Q2R_half (w : Qc) : Q2R (w / Q2Qc (inject_Z 2))%Qc = Q2R w / 2.
Proof.
  transitivity (Q2R (this w * / inject_Z 2)%Q).
  - apply Qreals.Qeq_eqR. unfold Qcdiv, Qcmult, Qcinv. cbn [this Q2Qc].
    rewrite !Qred_correct. reflexivity.
  - rewrite Qreals.Q2R_mult, Qreals.Q2R_inv by discriminate.
    unfold Rdiv. f_equal. f_equal. unfold Q2R, inject_Z. cbn [Qnum Qden]. field.
Qed.

Lemma Qcle_Rle (a b : Qc) : (a <= b)%Qc -> Q2R a <= Q2R b.
Proof. apply Qreals.Qle_Rle. Qed.

End RealsOfRationals.

Lemma Some_eq {A : Type} (x y : A) : Some x = Some y -> x = y.
Proof. congruence. Qed.

Section ArcGeometry.
Local Open Scope R_scope.

(** [polarToCartesian] by itself measures the angle from 12 o'clock,
    clockwise on the screen. *)
Lemma polarToCartesian_clock (cx cy r a : R) :
  Geometry.polarToCartesian cx cy r a
    = (cx + r * sin (a * PI / 180), cy - r * cos (a * PI / 180)).
Proof.
  unfold Geometry.polarToCartesian.
  replace ((a - 90) * PI / 180) with (- (PI / 2 - a * PI / 180)) by field.
  rewrite cos_neg, sin_neg.
  rewrite <- (sin_shift (a * PI / 180)), <- (cos_shift (a * PI / 180)).
  f_equal; ring.
Qed.

Lemma polarToCartesian_period (cx cy r a : R) :
  Geometry.polarToCartesian cx cy r (a + 360) = Geometry.polarToCartesian cx cy r a.
Proof.
  unfold Geometry.polarToCartesian.
  replace ((a + 360 - 90) * PI / 180) with ((a - 90) * PI / 180 + 2 * PI) by field.
  rewrite cos_plus, sin_plus, cos_2PI, sin_2PI. f_equal; ring.
Qed.

(** [polarToCartesian] alone reads an angle as a clock does.  The point
    at the angle [a], in degrees, is [(cx + r sin a, cy - r cos a)]: it is
    on the circle of radius [r] about the centre, the angles 0, 90, 180 and
    270 give the points above the centre, to its right, below it and to
    its left, and angles a full turn apart give the same point. *)
Theorem polarToCartesian_reads_like_a_clock (cx cy r a : R) :
  Geometry.polarToCartesian cx cy r a
    = (cx + r * sin (a * PI / 180), cy - r * cos (a * PI / 180)) /\
  Arc.dist2 (Geometry.polarToCartesian cx cy r a) (cx, cy) = r * r /\
  Geometry.polarToCartesian cx cy r 0 = (cx, cy - r) /\
  Geometry.polarToCartesian cx cy r 90 = (cx + r, cy) /\
  Geometry.polarToCartesian cx cy r 180 = (cx, cy + r) /\
  Geometry.polarToCartesian cx cy r 270 = (cx - r, cy) /\
  Geometry.polarToCartesian cx cy r (a + 360) = Geometry.polarToCartesian cx cy r a.
Proof.
  split; [apply polarToCartesian_clock|]. split; [|split; [|split; [|split; [|split]]]].
  - rewrite polarToCartesian_clock. unfold Arc.dist2. cbn [fst snd].
    pose proof (sin2_cos2 (a * PI / 180)) as Hone. unfold Rsqr in Hone.
    transitivity (r * r * (sin (a * PI / 180) * sin (a * PI / 180)
                           + cos (a * PI / 180) * cos (a * PI / 180))).
    + ring.
    + rewrite Hone. ring.
  - rewrite polarToCartesian_clock.
    replace (0 * PI / 180) with 0 by field. rewrite sin_0, cos_0. f_equal; ring.
  - rewrite polarToCartesian_clock.
    replace (90 * PI / 180) with (PI / 2) by field. rewrite sin_PI2, cos_PI2.
    f_equal; ring.
  - rewrite polarToCartesian_clock.
    replace (180 * PI / 180) with PI by field. rewrite sin_PI, cos_PI. f_equal; ring.
  - rewrite polarToCartesian_clock.
    replace (270 * PI / 180) with (3 * (PI / 2)) by field.
    rewrite sin_3PI2, cos_3PI2. f_equal; ring.
  - apply polarToCartesian_period.
Qed.

(** Through the rotation of the group the angle is measured from 9
    o'clock. *)
Lemma rotate_polarToCartesian (cx cy r a : R) :
  Geometry.rotate (-90) (cx, cy) (Geometry.polarToCartesian cx cy r a)
    = (cx - r * cos (a * PI / 180), cy - r * sin (a * PI / 180)).
Proof.
  rewrite polarToCartesian_clock. unfold Geometry.rotate.
  replace (-90 * PI / 180) with (- (PI / 2)) by field.
  rewrite cos_neg, sin_neg, cos_PI2, sin_PI2. f_equal; ring.
Qed.

Lemma on_circle_inside (w h r t : R) :
  0 <= r -> 2 * r <= w -> 2 * r <= h ->
  let shown := (w / 2 - r * cos t, h / 2 - r * sin t) in
  Arc.dist2 shown (w / 2, h / 2) = r * r /\ Arc.inside w h shown.
Proof.
  intros Hr Hw Hh shown. unfold Arc.dist2, Arc.inside, shown. cbn [fst snd].
  pose proof (sin2_cos2 t) as Hone. unfold Rsqr in Hone.
  pose proof (COS_bound t) as [Hc1 Hc2]. pose proof (SIN_bound t) as [Hs1 Hs2].
  split; [|split; split]; nra.
Qed.

(** The chart on the screen.  Whatever the values and the progress, in a
    chart of finite size every corner of a slice that is a point at all
    (its angle is finite) is drawn, through the rotation of the group, at
    [(width/2 - r cos a, height/2 - r sin a)] for its angle [a] in degrees:
    on the circle of the chart's radius about the centre of the svg,
    measured clockwise from 9 o'clock; and inside the svg when the radius
    is not negative and the diameter is at most the width and the
    height. *)
Theorem chart_is_drawn_on_its_circle (data : list (SliceData xnum))
    (width height outerRadius : Qc) (progress : xnum) (path : Path xnum)
    (pt : R * R) :
  let svg := AnimatedPieChart data (Fin width) (Fin height) (Fin outerRadius) progress in
  let centre := (Q2R width / 2, Q2R height / 2) in
  let r := Q2R outerRadius in
  In path (paths svg) ->
  Geometry.start_point path = Some pt \/ Arc.end_point path = Some pt ->
  exists a shown,
    (startAngle (d path) = Fin a /\ Geometry.start_point path = Some pt \/
     endAngle (d path) = Fin a /\ Arc.end_point path = Some pt) /\
    Geometry.on_screen svg pt = Some shown /\
    shown = (fst centre - r * cos (Q2R a * PI / 180),
             snd centre - r * sin (Q2R a * PI / 180)) /\
    Arc.dist2 shown centre = r * r /\
    ((0 <= outerRadius)%Qc ->
     (Q2Qc (inject_Z 2) * outerRadius <= width)%Qc ->
     (Q2Qc (inject_Z 2) * outerRadius <= height)%Qc ->
     Arc.inside (Q2R width) (Q2R height) shown).
Proof.
  intros svg centre r Hin Hpt.
  assert (Htwo : Q2Qc (inject_Z 2) <> 0%Qc) by discriminate.
  destruct (slices_arc _ _ _ _ _ _ _ _ Hin) as (Hx & Hy & Hr & _).
  cbn [num_of_Z num_div xnum_Number] in Hx, Hy. unfold xnum_of_Z in Hx, Hy.
  rewrite (xdiv_finite _ _ Htwo) in Hx. rewrite (xdiv_finite _ _ Htwo) in Hy.
  assert (Hscreen : forall p,
             Geometry.on_screen svg p = Some (Geometry.rotate (-90) centre p)).
  { intros p. unfold Geometry.on_screen, svg, AnimatedPieChart.
    cbn [g_origin g_rotation num_of_Z num_div xnum_Number]. unfold xnum_of_Z.
    rewrite (xdiv_finite width _ Htwo), (xdiv_finite height _ Htwo).
    rewrite !Q2R_half. reflexivity. }
  assert (Hcorner : exists a,
             (startAngle (d path) = Fin a /\ Geometry.start_point path = Some pt \/
              endAngle (d path) = Fin a /\ Arc.end_point path = Some pt) /\
             pt = Geometry.polarToCartesian (fst centre) (snd centre) r (Q2R a)).
  { unfold Geometry.start_point, Arc.end_point in *. rewrite Hx, Hy, Hr in *.
    destruct Hpt as [Hpt|Hpt].
    - destruct (startAngle (d path)) as [a| | |]; try discriminate.
      exists a. split; [left; split; [reflexivity|exact Hpt]|].
      apply Some_eq in Hpt. subst pt. rewrite !Q2R_half. reflexivity.
    - destruct (endAngle (d path)) as [a| | |]; try discriminate.
      exists a. split; [right; split; [reflexivity|exact Hpt]|].
      apply Some_eq in Hpt. subst pt. rewrite !Q2R_half. reflexivity. }
  destruct Hcorner as (a & Hangle & ->).
  exists a, (Geometry.rotate (-90) centre
               (Geometry.polarToCartesian (fst centre) (snd centre) r (Q2R a))).
  split; [exact Hangle|]. split; [apply Hscreen|].
  unfold centre. cbn [fst snd]. rewrite !rotate_polarToCartesian.
  split; [reflexivity|].
  split.
  - unfold Arc.dist2, centre. cbn [fst snd].
    pose proof (sin2_cos2 (Q2R a * PI / 180)) as Hone. unfold Rsqr in Hone.
    transitivity (r * r * (sin (Q2R a * PI / 180) * sin (Q2R a * PI / 180)
                           + cos (Q2R a * PI / 180) * cos (Q2R a * PI / 180))).
    + ring.
    + rewrite Hone. ring.
  - intros Hr0 Hw Hh.
    apply Qcle_Rle in Hr0, Hw, Hh. rewrite Q2R_Qcmult, Q2R_of_Z in Hw, Hh.
    change (Q2R 0%Qc) with (Q2R (Q2Qc (inject_Z 0))) in Hr0. rewrite Q2R_of_Z in Hr0.
    apply (on_circle_inside (Q2R width) (Q2R height) r (Q2R a * PI / 180) Hr0 Hw Hh).
Qed.
End ArcGeometry.

(** The chart of the sample result, 200 by 200 with radius 90: the point
    where its first slice starts is drawn inside the svg. *)
Lemma chart_is_drawn_on_its_circle_witness :
  let data := Home.pieData (H := xnum_Number) Sample.light (Some Sample.scan) in
  let svg :=
    AnimatedPieChart data (Fin (Q2Qc (inject_Z 200))) (Fin (Q2Qc (inject_Z 200)))
      (Fin (Q2Qc (inject_Z 90))) (Fin 1%Qc) in
  exists path pt shown,
    In path (paths svg) /\
    Geometry.start_point path = Some pt /\
    Geometry.on_screen svg pt = Some shown /\
    Arc.inside (Q2R (Q2Qc (inject_Z 200))) (Q2R (Q2Qc (inject_Z 200))) shown.
Proof.
  cbn zeta.
  destruct (first_path {| value := xnum_of_Z 3; color := danger Sample.light |}
              [ {| value := xnum_of_Z 1; color := "#FFC107" |};
                {| value := xnum_of_Z 10; color := success Sample.light |};
                {| value := xnum_of_Z 40; color := "#999" |} ]
              (Q2Qc (inject_Z 200)) (Q2Qc (inject_Z 200)) (Q2Qc (inject_Z 90))
              (Fin 1%Qc)) as (animatedEndAngle & others & Hpaths).
  assert (Hin : In {| d := describeArc (Fin (Q2Qc (inject_Z 200) / Q2Qc 2)%Qc)
                             (Fin (Q2Qc (inject_Z 200) / Q2Qc 2)%Qc)
                             (Fin (Q2Qc (inject_Z 90))) (Fin 0%Qc) animatedEndAngle;
                      fill := danger Sample.light |}
                  (paths (AnimatedPieChart
                            (Home.pieData (H := xnum_Number) Sample.light
                               (Some Sample.scan))
                            (Fin (Q2Qc (inject_Z 200))) (Fin (Q2Qc (inject_Z 200)))
                            (Fin (Q2Qc (inject_Z 90))) (Fin 1%Qc)))).
  { change (Home.pieData Sample.light (Some Sample.scan))
      with [ {| value := xnum_of_Z 3; color := danger Sample.light |};
             {| value := xnum_of_Z 1; color := "#FFC107" |};
             {| value := xnum_of_Z 10; color := success Sample.light |};
             {| value := xnum_of_Z 40; color := "#999" |} ].
    rewrite Hpaths. left. reflexivity. }
  destruct (chart_is_drawn_on_its_circle _ _ _ _ _ _ _ Hin
              (or_introl (start_point_at_zero _ _ _ _ _)))
    as (a & shown & _ & Hscreen & _ & _ & Hinside).
  eexists _, _, shown. split; [exact Hin|]. split; [apply start_point_at_zero|].
  split; [exact Hscreen|].
  apply Hinside; intros Hgt; discriminate Hgt.
Defined.
